(** * prime-gaps: the plotting script and the cache stripper

  A shallow embedding of [plot.py] and [strip_prime_cache.py].  Both
  scripts read a JSON report from disk, transform it in memory and write
  one file.  The embedding threads the file system through a small state
  and exception monad, keeps Python dictionaries as finite maps, numpy
  arrays of integers as lists of [Z], and the values of [np.log] as
  symbolic floats. *)

From Stdlib Require Import Ascii.
From stdpp Require Import gmap strings list fin_maps pretty.

#[local] Open Scope Z_scope.
#[local] Set Warnings "-register-all".

(** ** Python run-time: exceptions and outcomes *)

Module Py.

(** The built-in exceptions the two scripts can end with. *)
Inductive exn :=
  | FileNotFoundError (path : string)
  | UnicodeDecodeError
  | JSONDecodeError
  | KeyError (key : string)
  | TypeError
  | ValueError.

(** What running a piece of the script yields.  [Unmodelled] marks inputs
    whose treatment by numpy or by string formatting lies outside this
    development (arrays that are not flat lists of 64-bit integers, a
    [PrimesSoFar] that is not an integer): it says nothing of what the
    script does there. *)
Inductive outcome (A : Type) :=
  | Return (a : A)
  | Raise (e : exn)
  | Unmodelled.
Arguments Return {A} a.
Arguments Raise {A} e.
Arguments Unmodelled {A}.

End Py.
Export Py.

(** ** matplotlib figures, as far as the script fills them in *)

Module Plt.

(** An element of the array returned by [np.log] on integers: the float
    nearest to the logarithm of a positive count, minus infinity for
    zero, not-a-number for a negative entry. *)
Inductive npfloat :=
  | NegInf
  | NaN
  | Log (c : Z).

Record figure := Figure {
  title : string;
  xlabel : string;
  ylabel : string;
  (** the offsets of the one scatter collection, [(x, y)] per point *)
  scatter_offsets : list (Z * npfloat)
}.

End Plt.
Export Plt.

(** ** The file system *)

Module Fs.

(** The disk maps a path, as the script spells it, to the file there.
    Directories, permissions and links are left out: two spellings are two
    files, and opening for writing always succeeds.  A file holds text, or
    the picture [savefig] rendered. *)
Inductive file :=
  | Text (content : string)
  | Png (fig : figure).

Abbreviation disk := (gmap string file).

(** Computations that read and write the disk and may raise. *)
Definition M (A : Type) : Type := disk → outcome A * disk.

Definition ret {A} (a : A) : M A := λ fs, (Return a, fs).
Definition raise {A} (e : exn) : M A := λ fs, (Raise e, fs).
Definition bind {A B} (c : M A) (k : A → M B) : M B := λ fs,
  match c fs with
  | (Return a, fs') => k a fs'
  | (Raise e, fs') => (Raise e, fs')
  | (Unmodelled, fs') => (Unmodelled, fs')
  end.
Definition lift {A} (o : outcome A) : M A := λ fs, (o, fs).

(** [open(path, 'r')]: the file must exist. *)
Definition open_r (path : string) : M file := λ fs,
  match fs !! path with
  | Some f => (Return f, fs)
  | None => (Raise (FileNotFoundError path), fs)
  end.

(** [open(path, 'w')]: creates the file or truncates it. *)
Definition open_w (path : string) : M unit := λ fs,
  (Return tt, <[path := Text ""]> fs).

(** [f.write(s)] on a text file opened for writing. *)
Definition write (path : string) (s : string) : M unit := λ fs,
  match fs !! path with
  | Some (Text old) => (Return tt, <[path := Text (old +:+ s)]> fs)
  | _ => (Return tt, <[path := Text s]> fs)
  end.

(** [plt.savefig(path)]: the rendered figure replaces the file. *)
Definition savefig (path : string) (fig : figure) : M unit := λ fs,
  (Return tt, <[path := Png fig]> fs).

End Fs.
Export Fs.

Notation "x <- c ;; k" := (bind c (λ x, k))
(at level 100, c at next level, right associativity,
 format "'[v' x  <-  c  ;;  '/' k ']'").
Notation "c ;;; k" := (bind c (λ _, k))
(at level 100, right associativity).

(** ** JSON documents *)

Module Json.

Unset Elimination Schemes.
(** The values [json.load] returns, for documents whose numbers are
    integers.  A Python [dict] compares by its key/value pairs, whatever
    their order, so objects are finite maps. *)
Inductive json :=
  | JNull
  | JBool (b : bool)
  | JNum (n : Z)
  | JStr (s : string)
  | JArr (l : list json)
  | JObj (m : gmap string json).
Set Elimination Schemes.

(** The [json] module of the Python library: a parser that may reject a
    text ([None] stands for [JSONDecodeError]) and a printer, such that
    printing then parsing gives back the value.  In which order the printer
    lists the keys of an object is left to the instance. *)
Class JsonCodec := {
  json_loads : string → option json;
  json_dumps : json → string;
  json_loads_dumps : ∀ v, json_loads (json_dumps v) = Some v
}.

(** [json.load(f)]: read the whole file, then parse. *)
Definition load `{JsonCodec} (f : file) : M json :=
  match f with
  | Text s =>
      match json_loads s with
      | Some v => ret v
      | None => raise JSONDecodeError
      end
  | Png _ => raise UnicodeDecodeError
  end.

(** [json.dump(v, f)] for [f] the file opened at [path]. *)
Definition dump `{JsonCodec} (v : json) (path : string) : M unit :=
  write path (json_dumps v).

(** [v[key]] for a string [key]. *)
Definition getitem (v : json) (key : string) : outcome json :=
  match v with
  | JObj m =>
      match m !! key with
      | Some x => Return x
      | None => Raise (KeyError key)
      end
  | _ => Raise TypeError
  end.

(** [del v[key]] for a string [key]; the value after the deletion. *)
Definition delitem (v : json) (key : string) : outcome json :=
  match v with
  | JObj m =>
      match m !! key with
      | Some _ => Return (JObj (delete key m))
      | None => Raise (KeyError key)
      end
  | _ => Raise TypeError
  end.

End Json.
Export Json.

(** ** numpy on one-dimensional integer arrays *)

Module Np.

(** An array of [int64]: its entries lie between -2^63 and 2^63 - 1. *)
Abbreviation ndarray := (list Z).

Definition int64_fits (n : Z) : bool :=
  bool_decide (- 2 ^ 63 ≤ n < 2 ^ 63).

(** What an [int64] operation stores for the exact result [z]: [z] modulo
    2^64, read as a signed number. *)
Definition int64 (z : Z) : Z := (z + 2 ^ 63) `mod` 2 ^ 64 - 2 ^ 63.

Definition as_int64 (v : json) : option Z :=
  match v with
  | JNum n => if int64_fits n then Some n else None
  | _ => None
  end.

(** [np.array(v)] where [v] is a list of integers that fit 64 bits; what
    numpy makes of any other value is not modelled. *)
Definition array (v : json) : outcome ndarray :=
  match v with
  | JArr l =>
      match mapM as_int64 l with
      | Some a => Return a
      | None => Unmodelled
      end
  | _ => Unmodelled
  end.

Fixpoint nonzero_from (i : Z) (a : ndarray) : list Z :=
  match a with
  | [] => []
  | y :: a' =>
      if decide (y = 0) then nonzero_from (i + 1) a'
      else i :: nonzero_from (i + 1) a'
  end.

(** [np.nonzero(a)]: the indices of the nonzero entries, ascending (the
    single component of the tuple numpy returns for one dimension). *)
Definition nonzero (a : ndarray) : list Z := nonzero_from 0 a.

(** [np.max]: raises on an empty array. *)
Definition max (l : list Z) : outcome Z :=
  match l with
  | [] => Raise ValueError
  | x :: l' => Return (foldl Z.max x l')
  end.

(** [a[:stop]] with Python's reading of a negative bound. *)
Definition slice_to {A} (stop : Z) (a : list A) : list A :=
  let stop := if decide (stop < 0) then Z.max 0 (Z.of_nat (length a) + stop)
              else stop in
  take (Z.to_nat stop) a.

(** [a[start:]]. *)
Definition slice_from {A} (start : Z) (a : list A) : list A :=
  let start := if decide (start < 0)
               then Z.max 0 (Z.of_nat (length a) + start)
               else start in
  drop (Z.to_nat start) a.

(** [np.arange(n)]. *)
Definition arange (n : nat) : ndarray := Z.of_nat <$> seq 0 n.

(** [a * k], entry by entry in [int64]. *)
Definition mul (a : ndarray) (k : Z) : ndarray := (λ x, int64 (x * k)) <$> a.

Definition log1 (c : Z) : npfloat :=
  if decide (c = 0) then NegInf
  else if decide (c < 0) then NaN
  else Log c.

(** [np.log(a)] under [np.errstate(divide='ignore')]: elementwise, the
    division warning for a zero entry is silenced and nothing raises. *)
Definition log (a : ndarray) : list npfloat := log1 <$> a.

End Np.

(** ** plot.py *)

Module Plot.

(** [f'{v}'] for the value read from [PrimesSoFar]: the decimal digits of
    an integer; the formatting of other values is not modelled. *)
Definition format_value (v : json) : outcome string :=
  match v with
  | JNum n => Return (pretty n)
  | _ => Unmodelled
  end.

(** [ax.scatter(xs, ys)]: both arrays must have the same size. *)
Definition scatter (xs : list Z) (ys : list npfloat) :
    outcome (list (Z * npfloat)) :=
  if decide (length xs = length ys) then Return (zip xs ys)
  else Raise ValueError.

(** [main()], line by line: the report is read (lines 8-9), the two fields
    are taken (11-12), the counts are cut after the last nonzero one (14-15),
    the gap sizes are built (16), index 0 is dropped from both (19-20), the
    logarithm is taken (23-24), the figure is set up (26-29), filled (31)
    and saved (32). *)
Definition main `{JsonCodec} : M unit :=
  f_in <- open_r "info.json" ;;
  info <- Json.load f_in ;;
  num_primes <- lift (getitem info "PrimesSoFar") ;;
  gap_counter <- lift (getitem info "GapCounter") ;;
  ys <- lift (Np.array gap_counter) ;;
  last_nonzero_y <- lift (Np.max (Np.nonzero ys)) ;;
  let ys := Np.slice_to (Np.int64 (last_nonzero_y + 1)) ys in
  let xs := Np.mul (Np.arange (length ys)) 2 in
  let ys := Np.slice_from 1 ys in
  let xs := Np.slice_from 1 xs in
  let ys := Np.log ys in
  shown <- lift (format_value num_primes) ;;
  offsets <- lift (scatter xs ys) ;;
  savefig ("plot_" +:+ shown +:+ ".png")
    {| title := "Log Prime Gaps (First " +:+ shown +:+ " Primes)";
       xlabel := "Gap Size";
       ylabel := "log(n)";
       scatter_offsets := offsets |}.

End Plot.

(** ** strip_prime_cache.py *)

Module StripPrimeCache.

(** The input is read and closed (lines 23-24), the key is deleted (26),
    then the output is opened, which truncates it, and written (28-29). *)
Definition strip_precomputed_primes `{JsonCodec}
    (infile outfile : string) : M unit :=
  f_in <- open_r infile ;;
  val <- Json.load f_in ;;
  val <- lift (delitem val "PrecomputedPrimes") ;;
  open_w outfile ;;;
  Json.dump val outfile.

End StripPrimeCache.

(** ** strip_prime_cache.py: the command line

  [main()] builds a parser with the two required options [-i/--infile] and
  [-o/--outfile] (argparse adds [-h/--help]) and hands the parsed paths to
  [strip_precomputed_primes].  The arguments covered are the options
  spelled out in full and the words that do not start with a dash;
  abbreviated options, [--opt=value], [-ovalue] and other words starting
  with a dash are left unmodelled. *)

Module StripMain.

(** What [parse_args] returns, or the status it exits with: 0 after the
    help text, 2 after a usage error. *)
Inductive parsed :=
  | Namespace (infile outfile : string)
  | Exit (code : Z).

Definition is_help (t : string) : bool :=
  bool_decide (t = "-h" ∨ t = "--help").
Definition is_infile (t : string) : bool :=
  bool_decide (t = "-i" ∨ t = "--infile").
Definition is_outfile (t : string) : bool :=
  bool_decide (t = "-o" ∨ t = "--outfile").

(** A word that cannot be an option: it does not start with the prefix
    character. *)
Definition is_plain (t : string) : bool :=
  match t with
  | String "-" _ => false
  | _ => true
  end.

Definition modelled (t : string) : bool :=
  is_plain t || is_help t || is_infile t || is_outfile t.

(** The arguments are consumed from left to right: an option takes the
    next word as its value, which must be plain; a later occurrence
    replaces an earlier one; help exits at once; a plain word on its own
    is kept as unrecognized.  At the end both options must have been
    seen, and nothing unrecognized. *)
Fixpoint consume (infile outfile : option string) (extras : bool)
    (argv : list string) : parsed :=
  match argv with
  | [] =>
      match infile, outfile with
      | Some i, Some o => if extras then Exit 2 else Namespace i o
      | _, _ => Exit 2
      end
  | t :: rest =>
      if is_help t then Exit 0
      else if is_infile t then
        match rest with
        | v :: rest' =>
            if is_plain v then consume (Some v) outfile extras rest'
            else Exit 2
        | [] => Exit 2
        end
      else if is_outfile t then
        match rest with
        | v :: rest' =>
            if is_plain v then consume infile (Some v) extras rest'
            else Exit 2
        | [] => Exit 2
        end
      else consume infile outfile true rest
  end.

(** [parser.parse_args()] on [sys.argv[1:]]. *)
Definition parse_args (argv : list string) : outcome parsed :=
  if forallb modelled argv then Return (consume None None false argv)
  else Unmodelled.

(** How the script ends when no exception escapes. *)
Inductive finish :=
  | Finished
  | SystemExit (code : Z).

Definition main `{JsonCodec} (argv : list string) : M finish :=
  args <- lift (parse_args argv) ;;
  match args with
  | Exit code => ret (SystemExit code)
  | Namespace infile outfile =>
      StripPrimeCache.strip_precomputed_primes infile outfile ;;;
      ret Finished
  end.

End StripMain.

(** ** Paths as the operating system reads them

  In the module [Fs] a path is its own file and every path can be opened
  for writing.  The operating system is less simple: several spellings
  name one file ([info.json] and [./info.json], a link and its target),
  and a path may lead nowhere (the empty path, a directory that does not
  exist).  Here the script runs with the name resolution of its
  environment: [resolve path] is the file the path names, whether it
  exists yet or not, and [None] when the path leads nowhere; the disk is
  keyed by files.  Permissions and devices that refuse a write are still
  left out. *)

Module Os.

Class Names := { resolve : string → option string }.

(** [open(path, 'r')]: the path must name a file that exists. *)
Definition open_r `{Names} (path : string) : M file := λ fs,
  match resolve path with
  | Some name =>
      match fs !! name with
      | Some f => (Return f, fs)
      | None => (Raise (FileNotFoundError path), fs)
      end
  | None => (Raise (FileNotFoundError path), fs)
  end.

(** [open(path, 'w')]: creates the file the path names or truncates it, and
    hands that file back; raises when the path leads nowhere. *)
Definition open_w `{Names} (path : string) : M string := λ fs,
  match resolve path with
  | Some name => (Return name, <[name := Text ""]> fs)
  | None => (Raise (FileNotFoundError path), fs)
  end.

(** [strip_precomputed_primes], lines 22-29, over these two. *)
Definition strip_precomputed_primes `{JsonCodec} `{Names}
    (infile outfile : string) : M unit :=
  f_in <- open_r infile ;;
  val <- Json.load f_in ;;
  val <- lift (delitem val "PrecomputedPrimes") ;;
  f_out <- open_w outfile ;;
  Json.dump val f_out.

(** The environment of [Fs]: every path is the name of its own file. *)
Definition plain : Names := {| resolve := Some |}.

(** A working directory without subdirectories and links: after any
    leading [./] a path must be a name, not empty, not [.] or [..], without
    a slash. *)
Fixpoint drop_dot_slash (p : string) : string :=
  match p with
  | String "."%char (String "/"%char p') => drop_dot_slash p'
  | _ => p
  end.

Fixpoint has_slash (p : string) : bool :=
  match p with
  | EmptyString => false
  | String c p' => Ascii.eqb c "/" || has_slash p'
  end.

Definition flat : Names := {|
  resolve p :=
    let name := drop_dot_slash p in
    if bool_decide (name = "" ∨ name = "." ∨ name = "..") || has_slash name
    then None
    else Some name
|}.

End Os.

(** ** An executable [json] module for reports with integer numbers

  The printer follows [json.dump] with its default settings: [", "] and
  [": "] as separators, every character outside the printable ASCII range
  escaped.  The parser follows the decoder of the library: white space
  around tokens, the usual escapes, strict rejection of raw control
  characters, no leading zeros, the last of two equal keys wins.
  Characters are code points below 256; numbers with a fraction or an
  exponent and escapes of larger code points are rejected.  The keys of an
  object are printed in the order of [map_to_list], where Python keeps the
  order of insertion. *)

Module PyJson.

#[local] Open Scope char_scope.

Definition dquote : ascii := "034".
Definition backslash : ascii := "\".

Definition is_ws (c : ascii) : bool :=
  match c with
  | " " | "009" | "010" | "013" => true
  | _ => false
  end.

Fixpoint skip_ws (s : string) : string :=
  match s with
  | String c s' => if is_ws c then skip_ws s' else s
  | EmptyString => s
  end.

(** *** Strings *)

Definition hex_digit (n : N) : ascii :=
  match n with
  | 0 => "0" | 1 => "1" | 2 => "2" | 3 => "3" | 4 => "4" | 5 => "5"
  | 6 => "6" | 7 => "7" | 8 => "8" | 9 => "9" | 10 => "a" | 11 => "b"
  | 12 => "c" | 13 => "d" | 14 => "e" | _ => "f"
  end%N.

(** The decimal digits are the code points 48 to 57. *)
Definition digit_value (c : ascii) : option N :=
  let n := N_of_ascii c in
  if ((48 <=? n) && (n <=? 57))%N then Some (n - 48)%N else None.

Definition hex_value (c : ascii) : option N :=
  match digit_value c with
  | Some d => Some d
  | None =>
      match c with
      | "a" | "A" => Some 10 | "b" | "B" => Some 11 | "c" | "C" => Some 12
      | "d" | "D" => Some 13 | "e" | "E" => Some 14 | "f" | "F" => Some 15
      | _ => None
      end%N
  end.

Definition escape_char (c : ascii) : string :=
  if Ascii.eqb c dquote then String backslash (String dquote "")
  else if Ascii.eqb c backslash then String backslash (String backslash "")
  else match c with
  | "008" => String backslash "b"
  | "012" => String backslash "f"
  | "010" => String backslash "n"
  | "013" => String backslash "r"
  | "009" => String backslash "t"
  | _ =>
      let n := N_of_ascii c in
      if ((32 <=? n) && (n <=? 126))%N then String c ""
      else String backslash (String "u" (String "0" (String "0"
             (String (hex_digit (n / 16)) (String (hex_digit (n mod 16)) "")))))
  end.

Fixpoint escape (s : string) : string :=
  match s with
  | EmptyString => EmptyString
  | String c s' => escape_char c +:+ escape s'
  end.

Definition dumps_string (s : string) : string :=
  String dquote (escape s +:+ String dquote "").

Definition hex4 (h1 h2 h3 h4 : ascii) : option N :=
  a ← hex_value h1; b ← hex_value h2; c ← hex_value h3; d ← hex_value h4;
  Some (((a * 16 + b) * 16 + c) * 16 + d)%N.

(** The text after an opening quote: the string it denotes and what
    follows the closing quote. *)
Fixpoint scanstring (s : string) : option (string * string) :=
  match s with
  | EmptyString => None
  | String c s1 =>
      if Ascii.eqb c dquote then Some (EmptyString, s1)
      else if Ascii.eqb c backslash then
        match s1 with
        | EmptyString => None
        | String e s2 =>
            let continue (x : ascii) :=
              prod_map (String x) id <$> scanstring s2 in
            if Ascii.eqb e dquote then continue dquote
            else match e with
            | "\" => continue backslash
            | "/" => continue "/"
            | "b" => continue "008"
            | "f" => continue "012"
            | "n" => continue "010"
            | "r" => continue "013"
            | "t" => continue "009"
            | "u" =>
                match s2 with
                | String h1 (String h2 (String h3 (String h4 s3))) =>
                    match hex4 h1 h2 h3 h4 with
                    | Some n =>
                        if (n <? 256)%N
                        then prod_map (String (ascii_of_N n)) id
                               <$> scanstring s3
                        else None
                    | None => None
                    end
                | _ => None
                end
            | _ => None
            end
        end
      else if (N_of_ascii c <? 32)%N then None
      else prod_map (String c) id <$> scanstring s1
  end.

(** *** Integers *)

Fixpoint scan_digits (acc : N) (s : string) : N * string :=
  match s with
  | EmptyString => (acc, s)
  | String c s' =>
      match digit_value c with
      | Some d => scan_digits (10 * acc + d) s'
      | None => (acc, s)
      end
  end.

(** An integer literal must not run into a fraction or an exponent. *)
Definition ends_integer (s : string) : bool :=
  match s with
  | String "." _ | String "e" _ | String "E" _ => false
  | _ => true
  end.

Definition scan_natural (s : string) : option (N * string) :=
  match s with
  | String "0" s' => if ends_integer s' then Some (0%N, s') else None
  | String c _ =>
      match digit_value c with
      | Some _ =>
          let '(n, s') := scan_digits 0 s in
          if ends_integer s' then Some (n, s') else None
      | None => None
      end
  | EmptyString => None
  end.

Definition scan_number (s : string) : option (Z * string) :=
  match s with
  | String "-" s' => prod_map (λ n, - Z.of_N n) id <$> scan_natural s'
  | _ => prod_map Z.of_N id <$> scan_natural s
  end.

(** *** Documents *)

Fixpoint join_items (ts : list string) : string :=
  match ts with
  | [] => EmptyString
  | [t] => t
  | t :: ts' => t +:+ ", " +:+ join_items ts'
  end%string.

Definition member (kt : string * string) : string :=
  (dumps_string kt.1 +:+ ": " +:+ kt.2)%string.

Fixpoint dumps (v : json) : string :=
  match v with
  | JNull => "null"
  | JBool true => "true"
  | JBool false => "false"
  | JNum n => pretty n
  | JStr s => dumps_string s
  | JArr l => "[" +:+ join_items (dumps <$> l) +:+ "]"
  | JObj m => "{" +:+ join_items (member <$> map_to_list (dumps <$> m)) +:+ "}"
  end%string.

Fixpoint strip_prefix (p s : string) : option string :=
  match p, s with
  | EmptyString, _ => Some s
  | String c p', String d s' =>
      if Ascii.eqb c d then strip_prefix p' s' else None
  | String _ _, EmptyString => None
  end.

Section scanners.
Variable scan_value : string → option (json * string).

(** The elements of an array, from the first one on. *)
Fixpoint scan_elements (fuel : nat) (acc : list json) (s : string) :
    option (list json * string) :=
  match fuel with
  | O => None
  | S fuel =>
      '(v, s1) ← scan_value s;
      match skip_ws s1 with
      | String "," s2 => scan_elements fuel (v :: acc) (skip_ws s2)
      | String "]" s2 => Some (reverse (v :: acc), s2)
      | _ => None
      end
  end.

(** The members of an object, from the first key on; a key that
    comes again replaces the value stored before. *)
Fixpoint scan_members (fuel : nat) (acc : gmap string json) (s : string) :
    option (gmap string json * string) :=
  match fuel with
  | O => None
  | S fuel =>
      match s with
      | String c s1 =>
          if Ascii.eqb c dquote then
            '(k, s2) ← scanstring s1;
            match skip_ws s2 with
            | String ":" s3 =>
                '(v, s4) ← scan_value (skip_ws s3);
                match skip_ws s4 with
                | String "," s5 =>
                    scan_members fuel (<[k := v]> acc) (skip_ws s5)
                | String "}" s5 => Some (<[k := v]> acc, s5)
                | _ => None
                end
            | _ => None
            end
          else None
      | EmptyString => None
      end
  end.
End scanners.

Fixpoint scan_once (fuel : nat) (s : string) : option (json * string) :=
  match fuel with
  | O => None
  | S fuel =>
      match s with
      | EmptyString => None
      | String c s1 =>
          if Ascii.eqb c dquote then
            prod_map JStr id <$> scanstring s1
          else match c with
          | "[" =>
              match skip_ws s1 with
              | String "]" s2 => Some (JArr [], s2)
              | s2 => prod_map JArr id
                        <$> scan_elements (scan_once fuel) fuel [] s2
              end
          | "{" =>
              match skip_ws s1 with
              | String "}" s2 => Some (JObj ∅, s2)
              | s2 => prod_map JObj id
                        <$> scan_members (scan_once fuel) fuel ∅ s2
              end
          | "n" => pair JNull <$> strip_prefix "ull" s1
          | "t" => pair (JBool true) <$> strip_prefix "rue" s1
          | "f" => pair (JBool false) <$> strip_prefix "alse" s1
          | _ => prod_map JNum id <$> scan_number s
          end
      end
  end.

(** [json.loads]: one value, white space allowed around it. *)
Definition loads (s : string) : option json :=
  '(v, rest) ← scan_once (String.length s) (skip_ws s);
  match skip_ws rest with
  | EmptyString => Some v
  | _ => None
  end.

End PyJson.


(** * Vocabulary of the statements *)

(** ** Runs of plot.py *)

(** The file [savefig] writes and the figure in it, for a report of
    [primes] primes. *)
Definition plot_path (primes : Z) : string :=
  "plot_" +:+ pretty primes +:+ ".png".

Definition plot_figure (primes : Z) (offsets : list (Z * npfloat)) : figure :=
  {| title := "Log Prime Gaps (First " +:+ pretty primes +:+ " Primes)";
     xlabel := "Gap Size";
     ylabel := "log(n)";
     scatter_offsets := offsets |}.

(** The points handed to [scatter] when [last] is the index [np.max]
    returned: lines 15 to 24 of the script, on the counts. *)
Definition offsets_of (counts : list Z) (last : Z) : list (Z * npfloat) :=
  let ys := Np.slice_to (Np.int64 (last + 1)) counts in
  zip (Np.slice_from 1 (Np.mul (Np.arange (length ys)) 2))
      (Np.log (Np.slice_from 1 ys)).

(** The working directory holds [info.json], a JSON object whose
    [PrimesSoFar] is the integer [primes] and whose [GapCounter] is the list
    [counts] of integers that fit 64 bits, short enough for its doubled
    indices to fit as well. *)
Definition info_json `{JsonCodec} (fs : disk) (primes : Z) (counts : list Z) :
    Prop :=
  ∃ text doc,
    fs !! "info.json" = Some (Text text) ∧
    json_loads text = Some (JObj doc) ∧
    doc !! "PrimesSoFar" = Some (JNum primes) ∧
    doc !! "GapCounter" = Some (JArr (JNum <$> counts)) ∧
    Forall (λ c, Np.int64_fits c = true) counts ∧
    Z.of_nat (length counts) < 2 ^ 62.

(** [m] is the highest index of [counts] that holds a nonzero entry. *)
Definition highest_nonzero (counts : list Z) (m : nat) : Prop :=
  (∃ c, counts !! m = Some c ∧ c ≠ 0) ∧
  ∀ (i : nat) c, counts !! i = Some c → (m < i)%nat → c = 0.

(** ** Runs of strip_prime_cache.py *)

(** [json.load(open(path))]: what a later reader finds at [path]. *)
Definition reparse `{JsonCodec} (path : string) : M json :=
  f <- open_r path ;; Json.load f.

(** ** Concrete reports *)

Definition quoted (s : string) : string :=
  String PyJson.dquote (s +:+ String PyJson.dquote EmptyString).

(** Scenario A: {"PrimesSoFar": 100, "GapCounter": [5,0,3,0,0]} *)
Definition scenario_A_text : string :=
  "{" +:+ quoted "PrimesSoFar" +:+ ": 100, "
      +:+ quoted "GapCounter" +:+ ": [5,0,3,0,0]}".

Definition scenario_A_disk : disk := {["info.json" := Text scenario_A_text]}.

(** Scenario B: {"PrimesSoFar": 50, "GapCounter": [0,0,0]} *)
Definition scenario_B_text : string :=
  "{" +:+ quoted "PrimesSoFar" +:+ ": 50, "
      +:+ quoted "GapCounter" +:+ ": [0,0,0]}".

Definition scenario_B_disk : disk := {["info.json" := Text scenario_B_text]}.

(** Scenario C:
    {"PrimesSoFar":1,"GapCounter":[0],"PrecomputedPrimes":[2,3,5]} *)
Definition scenario_C_text : string :=
  "{" +:+ quoted "PrimesSoFar" +:+ ":1,"
      +:+ quoted "GapCounter" +:+ ":[0],"
      +:+ quoted "PrecomputedPrimes" +:+ ":[2,3,5]}".

Definition scenario_C_doc : gmap string json :=
  {[ "PrimesSoFar" := JNum 1;
     "GapCounter" := JArr [JNum 0];
     "PrecomputedPrimes" := JArr [JNum 2; JNum 3; JNum 5] ]}.

Definition scenario_C_disk : disk := {["info.json" := Text scenario_C_text]}.

(** A report already stripped: {"PrimesSoFar":1,"GapCounter":[0]} *)
Definition stripped_text : string :=
  "{" +:+ quoted "PrimesSoFar" +:+ ":1," +:+ quoted "GapCounter" +:+ ":[0]}".

Definition stripped_doc : gmap string json :=
  {[ "PrimesSoFar" := JNum 1; "GapCounter" := JArr [JNum 0] ]}.

Definition stripped_disk : disk := {["small.json" := Text stripped_text]}.

(** Only index 0 is nonzero: {"PrimesSoFar": 7, "GapCounter": [5, 0, 0]} *)
Definition lone_text : string :=
  "{" +:+ quoted "PrimesSoFar" +:+ ": 7, "
      +:+ quoted "GapCounter" +:+ ": [5, 0, 0]}".

Definition lone_disk : disk := {["info.json" := Text lone_text]}.

(** The report of scenario A with its cache:
    {"PrimesSoFar": 100, "GapCounter": [5,0,3,0,0],
     "PrecomputedPrimes": [2,3,5]} *)
Definition full_text : string :=
  "{" +:+ quoted "PrimesSoFar" +:+ ": 100, "
      +:+ quoted "GapCounter" +:+ ": [5,0,3,0,0], "
      +:+ quoted "PrecomputedPrimes" +:+ ": [2,3,5]}".

Definition full_doc : gmap string json :=
  {[ "PrimesSoFar" := JNum 100;
     "GapCounter" := JArr (JNum <$> [5; 0; 3; 0; 0]);
     "PrecomputedPrimes" := JArr [JNum 2; JNum 3; JNum 5] ]}.

Definition full_disk : disk := {["info.json" := Text full_text]}.

(** Another index 0, no trailing zeros:
    {"PrimesSoFar": 100, "GapCounter": [9,0,3]} *)
Definition trimmed_text : string :=
  "{" +:+ quoted "PrimesSoFar" +:+ ": 100, "
      +:+ quoted "GapCounter" +:+ ": [9,0,3]}".

Definition trimmed_disk : disk := {["info.json" := Text trimmed_text]}.

(** A negative counter: {"PrimesSoFar": 100, "GapCounter": [5,-1,3]} *)
Definition negative_text : string :=
  "{" +:+ quoted "PrimesSoFar" +:+ ": 100, "
      +:+ quoted "GapCounter" +:+ ": [5,-1,3]}".

Definition negative_disk : disk := {["info.json" := Text negative_text]}.

(** No [PrimesSoFar]: {"GapCounter": [0]} *)
Definition fieldless_text : string :=
  "{" +:+ quoted "GapCounter" +:+ ": [0]}".

Definition fieldless_doc : gmap string json :=
  {[ "GapCounter" := JArr [JNum 0] ]}.

Definition fieldless_disk : disk := {["info.json" := Text fieldless_text]}.

(** A text cut short, which is not JSON: {"PrimesSoFar": 100, *)
Definition broken_text : string :=
  "{" +:+ quoted "PrimesSoFar" +:+ ": 100,".

Definition broken_disk : disk := {["info.json" := Text broken_text]}.

(** An array at top level. *)
Definition array_text : string := "[2, 3, 5]".

Definition array_disk : disk := {["info.json" := Text array_text]}.

(** * Properties *)

(** ** Running the monad *)

Lemma bind_Return {A B} (c : M A) (k : A → M B) fs a fs' :
  c fs = (Return a, fs') → bind c k fs = k a fs'.
Proof. intros Hc. unfold bind. by rewrite Hc. Qed.

Lemma bind_Raise {A B} (c : M A) (k : A → M B) fs e fs' :
  c fs = (Raise e, fs') → bind c k fs = (Raise e, fs').
Proof. intros Hc. unfold bind. by rewrite Hc. Qed.

Lemma bind_lift_Return {A B} (o : outcome A) (k : A → M B) fs a :
  o = Return a → bind (lift o) k fs = k a fs.
Proof. by intros ->. Qed.

Lemma bind_lift_Raise {A B} (o : outcome A) (k : A → M B) fs e :
  o = Raise e → bind (lift o) k fs = (Raise e, fs).
Proof. by intros ->. Qed.

(** ** numpy *)

Lemma elem_of_nonzero_from i a x :
  x ∈ Np.nonzero_from i a ↔
  ∃ (k : nat) c, x = i + Z.of_nat k ∧ a !! k = Some c ∧ c ≠ 0.
Proof.
  revert i. induction a as [|y a IH]; intros i; simpl.
  - split; [by intros ?%elem_of_nil | by intros (k & c & _ & ? & _)].
  - destruct (decide (y = 0)) as [->|Hy].
    + rewrite IH. split.
      * intros (k & c & -> & Hk & Hc). exists (S k), c. split_and!; [lia|done..].
      * intros ([|k] & c & -> & Hk & Hc); simplify_eq/=.
        exists k, c. split_and!; [lia|done..].
    + rewrite elem_of_cons, IH. split.
      * intros [->|(k & c & -> & Hk & Hc)].
        -- exists 0%nat, y. split_and!; [lia|done..].
        -- exists (S k), c. split_and!; [lia|done..].
      * intros ([|k] & c & -> & Hk & Hc); simplify_eq/=.
        -- left. lia.
        -- right. exists k, c. split_and!; [lia|done..].
Qed.

Lemma elem_of_nonzero a x :
  x ∈ Np.nonzero a ↔ ∃ (k : nat) c, x = Z.of_nat k ∧ a !! k = Some c ∧ c ≠ 0.
Proof. unfold Np.nonzero. by rewrite elem_of_nonzero_from. Qed.

Lemma nonzero_nil a : Np.nonzero a = [] ↔ Forall (λ c, c = 0) a.
Proof.
  rewrite Forall_lookup. split.
  - intros Hnil k c Hk. destruct (decide (c = 0)) as [|Hc]; [done|].
    assert (Z.of_nat k ∈ Np.nonzero a) as Hin
      by (apply elem_of_nonzero; eauto).
    rewrite Hnil in Hin. by apply elem_of_nil in Hin.
  - intros Hall. destruct (Np.nonzero a) as [|x l] eqn:Heq; [done|].
    assert (x ∈ Np.nonzero a) as (k & c & _ & Hk & Hc)%elem_of_nonzero
      by (rewrite Heq; left).
    by destruct Hc; eapply Hall.
Qed.

Lemma foldl_max_init x l : x ≤ foldl Z.max x l.
Proof.
  revert x. induction l as [|z l IH]; intros x; simpl; [lia|].
  specialize (IH (x `max` z)). lia.
Qed.

Lemma foldl_max_ge x l y : y ∈ l → y ≤ foldl Z.max x l.
Proof.
  revert x. induction l as [|z l IH]; intros x; simpl.
  - by intros ?%elem_of_nil.
  - intros [->|Hy]%elem_of_cons; [|by apply IH].
    pose proof (foldl_max_init (x `max` z) l). lia.
Qed.

Lemma foldl_max_elem x l : foldl Z.max x l ∈ x :: l.
Proof.
  revert x. induction l as [|z l IH]; intros x; simpl; [left|].
  specialize (IH (x `max` z)).
  apply elem_of_cons in IH as [->|IH].
  - destruct (Z.max_spec x z) as [[_ ->]|[_ ->]]; [right; left|left].
  - by do 2 right.
Qed.

Lemma max_Return l m :
  Np.max l = Return m ↔ m ∈ l ∧ ∀ y, y ∈ l → y ≤ m.
Proof.
  destruct l as [|x l]; simpl.
  - split; [done|]. by intros [?%elem_of_nil _].
  - split.
    + intros [= <-]. split; [apply foldl_max_elem|].
      intros y [->|Hy]%elem_of_cons; [apply foldl_max_init | by apply foldl_max_ge].
    + intros [Hin Hub]. f_equal. apply Z.le_antisymm.
      * apply Hub, foldl_max_elem.
      * apply elem_of_cons in Hin as [->|Hin];
          [apply foldl_max_init | by apply foldl_max_ge].
Qed.

Lemma max_nil_iff l : Np.max l = Raise ValueError ↔ l = [].
Proof. by destruct l. Qed.

(** The index [np.max(np.nonzero(a))] computes is the highest one that
    holds a nonzero entry. *)
Lemma max_nonzero_highest a (m : nat) c :
  a !! m = Some c → c ≠ 0 →
  (∀ (i : nat) c', a !! i = Some c' → (m < i)%nat → c' = 0) →
  Np.max (Np.nonzero a) = Return (Z.of_nat m).
Proof.
  intros Hm Hc Habove. apply max_Return. split.
  - apply elem_of_nonzero. eauto.
  - intros y (k & c' & -> & Hk & Hc')%elem_of_nonzero.
    destruct (decide (m < k)%nat) as [Hlt|]; [|lia].
    by destruct Hc'; eapply Habove.
Qed.

Lemma max_nonzero_inv a x :
  Np.max (Np.nonzero a) = Return x →
  ∃ (m : nat) c, x = Z.of_nat m ∧ a !! m = Some c ∧ c ≠ 0 ∧
    ∀ (i : nat) c', a !! i = Some c' → (m < i)%nat → c' = 0.
Proof.
  intros [(m & c & -> & Hm & Hc)%elem_of_nonzero Hub]%max_Return.
  exists m, c. split_and!; [done..|].
  intros i c' Hi Hlt. destruct (decide (c' = 0)) as [|Hc']; [done|].
  assert (Z.of_nat i ≤ Z.of_nat m); [|lia].
  apply Hub, elem_of_nonzero. eauto.
Qed.

Lemma max_nonzero_cases a :
  (Np.max (Np.nonzero a) = Raise ValueError ∧ Forall (λ c, c = 0) a) ∨
  (∃ x, Np.max (Np.nonzero a) = Return x).
Proof.
  destruct (Np.nonzero a) as [|x l] eqn:Heq.
  - left. split; [done|]. by apply nonzero_nil.
  - right. by eexists.
Qed.

Lemma mapM_as_int64 (counts : list Z) :
  Forall (λ c, Np.int64_fits c = true) counts →
  mapM Np.as_int64 (JNum <$> counts) = Some counts.
Proof.
  intros Hfit. apply mapM_Some. apply Forall2_fmap_l.
  apply Forall_Forall2_diag. eapply Forall_impl; [done|].
  intros c Hc. simpl. by rewrite Hc.
Qed.

Lemma array_int64 (counts : list Z) :
  Forall (λ c, Np.int64_fits c = true) counts →
  Np.array (JArr (JNum <$> counts)) = Return counts.
Proof. intros Hfit. simpl. by rewrite mapM_as_int64. Qed.

Lemma slice_to_take {A} (n : nat) (a : list A) :
  Np.slice_to (Z.of_nat n) a = take n a.
Proof.
  unfold Np.slice_to. destruct (decide _); [lia|]. by rewrite Nat2Z.id.
Qed.

Lemma slice_from_1 {A} (a : list A) : Np.slice_from 1 a = drop 1 a.
Proof. done. Qed.

Lemma lookup_arange n (i : nat) :
  Np.arange n !! i = if decide (i < n)%nat then Some (Z.of_nat i) else None.
Proof.
  unfold Np.arange. rewrite list_lookup_fmap.
  destruct (decide _) as [Hlt|Hge].
  - by rewrite lookup_seq_lt.
  - by rewrite lookup_seq_ge by lia.
Qed.

Lemma length_arange n : length (Np.arange n) = n.
Proof. unfold Np.arange. by rewrite length_fmap, length_seq. Qed.

(** ** plot.py: what a run does *)

Section plot_run.
Context `{JsonCodec}.

Lemma length_offsets_sides (counts : list Z) (last : Z) :
  let ys := Np.slice_to (Np.int64 (last + 1)) counts in
  length (Np.slice_from 1 (Np.mul (Np.arange (length ys)) 2)) =
  length (Np.log (Np.slice_from 1 ys)).
Proof.
  intros ys. rewrite !slice_from_1. unfold Np.log, Np.mul.
  by rewrite length_fmap, !length_drop, length_fmap, length_arange.
Qed.

Lemma main_run fs primes counts :
  info_json fs primes counts →
  Plot.main fs =
    match Np.max (Np.nonzero counts) with
    | Return last =>
        (Return tt,
         <[plot_path primes := Png (plot_figure primes (offsets_of counts last))]> fs)
    | Raise e => (Raise e, fs)
    | Unmodelled => (Unmodelled, fs)
    end.
Proof.
  intros (text & doc & Hfile & Hparse & Hprimes & Hgap & Hfit & _).
  unfold Plot.main.
  erewrite bind_Return; [|by unfold open_r; rewrite Hfile].
  erewrite bind_Return; [|by unfold Json.load; rewrite Hparse].
  erewrite bind_lift_Return; [|by simpl; rewrite Hprimes].
  erewrite bind_lift_Return; [|by simpl; rewrite Hgap].
  erewrite bind_lift_Return; [|by apply array_int64].
  destruct (Np.max (Np.nonzero counts)) as [last|e|] eqn:Hmax;
    [|done|done].
  erewrite bind_lift_Return; [|done].
  erewrite bind_lift_Return; [|done].
  erewrite bind_lift_Return.
  2:{ unfold Plot.scatter. by rewrite decide_True by apply length_offsets_sides. }
  done.
Qed.

Lemma int64_exact z : - 2 ^ 63 ≤ z < 2 ^ 63 → Np.int64 z = z.
Proof. intros Hz. unfold Np.int64. rewrite Z.mod_small; lia. Qed.

Lemma lookup_offsets_of (counts : list Z) (m j : nat) :
  (m < length counts)%nat → Z.of_nat (length counts) < 2 ^ 62 →
  offsets_of counts (Z.of_nat m) !! j =
    if decide (S j ≤ m)%nat
    then (λ c, (2 * Z.of_nat (S j), Np.log1 c)) <$> counts !! S j
    else None.
Proof.
  intros Hm Hshort. unfold offsets_of.
  rewrite int64_exact by lia.
  replace (Z.of_nat m + 1) with (Z.of_nat (S m)) by lia.
  rewrite slice_to_take, !slice_from_1, length_take_le by lia.
  unfold Np.log, Np.mul. rewrite lookup_zip_with, <-!fmap_drop.
  rewrite !list_lookup_fmap, !lookup_drop, lookup_arange, lookup_take. simpl.
  repeat case_decide; try lia; [|done].
  destruct (counts !! S j) as [c|]; simpl; [|done].
  do 2 f_equal. rewrite int64_exact; lia.
Qed.

Lemma length_offsets_of (counts : list Z) (m : nat) :
  (m < length counts)%nat → Z.of_nat (length counts) < 2 ^ 62 →
  length (offsets_of counts (Z.of_nat m)) = m.
Proof.
  intros Hm Hshort. unfold offsets_of.
  rewrite int64_exact by lia.
  replace (Z.of_nat m + 1) with (Z.of_nat (S m)) by lia.
  rewrite slice_to_take, !slice_from_1, length_take_le by lia.
  unfold Np.log, Np.mul.
  rewrite length_zip_with, length_fmap, !length_drop, length_fmap,
    length_arange, length_take_le by lia.
  lia.
Qed.

Lemma info_json_short fs primes counts :
  info_json fs primes counts → Z.of_nat (length counts) < 2 ^ 62.
Proof. by intros (text & doc & _ & _ & _ & _ & _ & Hshort). Qed.

Lemma highest_nonzero_max counts m :
  highest_nonzero counts m →
  Np.max (Np.nonzero counts) = Return (Z.of_nat m) ∧ (m < length counts)%nat.
Proof.
  intros [(c & Hm & Hc) Habove]. split.
  - by eapply max_nonzero_highest.
  - by eapply lookup_lt_Some.
Qed.

Lemma main_plots fs primes counts m :
  info_json fs primes counts → highest_nonzero counts m →
  Plot.main fs =
    (Return tt,
     <[plot_path primes :=
         Png (plot_figure primes (offsets_of counts (Z.of_nat m)))]> fs).
Proof.
  intros Hinfo [Hmax _]%highest_nonzero_max.
  by rewrite (main_run _ _ _ Hinfo), Hmax.
Qed.

End plot_run.

(** ** The executable codec: printing then parsing *)

Section py_json.
Import PyJson.

Lemma app_cons c (s t : string) : String c s +:+ t = String c (s +:+ t).
Proof. done. Qed.

Lemma app_nil_end (s : string) : s +:+ EmptyString = s.
Proof. induction s as [|c s IH]; [done|]. by rewrite app_cons, IH. Qed.

Lemma app_associative (s t u : string) : (s +:+ t) +:+ u = s +:+ (t +:+ u).
Proof. induction s as [|c s IH]; [done|]. by rewrite !app_cons, IH. Qed.

Lemma length_app (s t : string) :
  String.length (s +:+ t) = (String.length s + String.length t)%nat.
Proof. induction s as [|c s IH]; [done|]. rewrite app_cons. simpl. by rewrite IH. Qed.

(** *** Strings *)

Lemma scanstring_escape_char c t :
  scanstring (escape_char c +:+ t) = prod_map (String c) id <$> scanstring t.
Proof. by destruct c as [[] [] [] [] [] [] [] []]. Qed.

Lemma scanstring_escape s rest :
  scanstring (escape s +:+ String dquote rest) = Some (s, rest).
Proof.
  induction s as [|c s IH]; [done|].
  simpl. by rewrite app_associative, scanstring_escape_char, IH.
Qed.

Lemma dumps_string_app s rest :
  dumps_string s +:+ rest = String dquote (escape s +:+ String dquote rest).
Proof.
  unfold dumps_string. by rewrite app_cons, app_associative, app_cons.
Qed.

(** *** Integers *)

Lemma digit_value_pretty_N_char d :
  (d < 10)%N → digit_value (pretty_N_char d) = Some d.
Proof.
  intros Hd.
  assert (d = 0 ∨ d = 1 ∨ d = 2 ∨ d = 3 ∨ d = 4 ∨ d = 5 ∨ d = 6 ∨ d = 7
          ∨ d = 8 ∨ d = 9)%N as Hcases by lia.
  by destruct_or! Hcases; subst.
Qed.

Lemma pretty_N_go_app x s : pretty_N_go x s = pretty_N_go x EmptyString +:+ s.
Proof.
  revert s. induction (N.lt_wf_0 x) as [x _ IH]; intros s.
  destruct (decide (x = 0)%N) as [->|Hx]; [done|].
  rewrite !(pretty_N_go_step x) by lia.
  rewrite IH by (apply N.div_lt; lia).
  rewrite (IH (x `div` 10)%N) with (s := String _ EmptyString)
    by (apply N.div_lt; lia).
  by rewrite app_associative.
Qed.

Lemma scan_digits_pretty x s :
  scan_digits 0 (pretty_N_go x s) = scan_digits x s.
Proof.
  revert s. induction (N.lt_wf_0 x) as [x _ IH]; intros s.
  destruct (decide (x = 0)%N) as [->|Hx]; [done|].
  rewrite pretty_N_go_step, IH by (try apply N.div_lt; lia).
  simpl. rewrite digit_value_pretty_N_char by (apply N.mod_lt; lia).
  f_equal. pose proof (N.div_mod x 10). lia.
Qed.

(** The first character of a positive number is a digit other than zero. *)
Definition leading_digit (c : ascii) : bool :=
  match digit_value c with
  | Some d => negb (d =? 0)%N
  | None => false
  end.

Lemma pretty_N_go_leading x s :
  (0 < x)%N → ∃ c t, pretty_N_go x s = String c t ∧ leading_digit c = true.
Proof.
  revert s. induction (N.lt_wf_0 x) as [x _ IH]; intros s Hx.
  rewrite pretty_N_go_step by done.
  destruct (decide (x `div` 10 = 0)%N) as [Hdiv|Hdiv].
  - rewrite Hdiv, pretty_N_go_0. eexists _, _. split; [done|].
    unfold leading_digit.
    rewrite digit_value_pretty_N_char by (apply N.mod_lt; lia).
    apply negb_true_iff, N.eqb_neq.
    pose proof (N.div_mod x 10). lia.
  - apply IH; [apply N.div_lt; lia | by apply N.neq_0_lt_0].
Qed.

(** What may follow an integer for the scanner to stop there. *)
Definition delimited (s : string) : bool :=
  match s with
  | EmptyString => true
  | String c _ =>
      match digit_value c with
      | Some _ => false
      | None => ends_integer s
      end
  end.

Lemma scan_digits_delimited n rest :
  delimited rest = true → scan_digits n rest = (n, rest).
Proof.
  destruct rest as [|c rest]; [done|]. simpl.
  by destruct (digit_value c).
Qed.

Lemma delimited_ends_integer rest :
  delimited rest = true → ends_integer rest = true.
Proof.
  destruct rest as [|c rest]; [done|]. simpl.
  by destruct (digit_value c).
Qed.

Lemma scan_natural_pretty (p : positive) rest :
  delimited rest = true →
  scan_natural (pretty_N_go (N.pos p) EmptyString +:+ rest)
  = Some (N.pos p, rest).
Proof.
  intros Hrest. rewrite <-pretty_N_go_app.
  destruct (pretty_N_go_leading (N.pos p) rest) as (c & t & Heq & Hc); [lia|].
  unfold scan_natural.
  assert (scan_digits 0 (String c t) = (N.pos p, rest)) as Hscan.
  { by rewrite <-Heq, scan_digits_pretty, scan_digits_delimited. }
  rewrite Heq. unfold leading_digit in Hc.
  destruct (digit_value c) as [d|] eqn:Hd; [|done].
  assert (c ≠ "0"%char) as Hc0.
  { intros ->. vm_compute in Hd. by simplify_eq. }
  assert (∀ (X : option (N * string)),
    match c with
    | "0"%char => X
    | _ => let '(n, s') := scan_digits 0 (String c t) in
           if ends_integer s' then Some (n, s') else None
    end = Some (N.pos p, rest)) as Hmatch.
  { intros X. rewrite Hscan, delimited_ends_integer by done.
    by destruct c as [[] [] [] [] [] [] [] []]. }
  destruct c as [[] [] [] [] [] [] [] []]; try done; apply (Hmatch None).
Qed.

Lemma scan_number_pretty (n : Z) rest :
  delimited rest = true → scan_number (pretty n +:+ rest) = Some (n, rest).
Proof.
  intros Hrest. destruct n as [|p|p].
  - change (pretty 0) with "0". rewrite app_cons. simpl.
    by rewrite delimited_ends_integer.
  - change (pretty (Z.pos p)) with (pretty_N_go (N.pos p) EmptyString).
    pose proof (scan_natural_pretty p rest Hrest) as Hnat.
    destruct (pretty_N_go_leading (N.pos p) EmptyString) as (c & t & Heq & Hc); [lia|].
    rewrite Heq, app_cons in Hnat |- *. unfold scan_number.
    assert (c ≠ "-"%char) as Hminus by (by intros ->).
    assert (prod_map Z.of_N id <$> scan_natural (String c (t +:+ rest))
            = Some (Z.pos p, rest)) as Hres by (by rewrite Hnat).
    destruct c as [[] [] [] [] [] [] [] []]; done.
  - change (pretty (Z.neg p))
      with ("-" +:+ pretty_N_go (N.pos p) EmptyString).
    rewrite app_associative, app_cons. simpl.
    change (EmptyString +:+ ?s) with s.
    by rewrite scan_natural_pretty.
Qed.

(** *** Induction on documents *)

Fixpoint json_size (v : json) : nat :=
  match v with
  | JArr l => S (sum_list (json_size <$> l))
  | JObj m => S (sum_list (map_to_list (json_size <$> m)).*2)
  | _ => 1
  end.

Lemma sum_list_elem_of (x : nat) (l : list nat) :
  x ∈ l → (x ≤ sum_list l)%nat.
Proof.
  induction 1 as [x l|x y l _ IH]; simpl; lia.
Qed.

Lemma json_ind (P : json → Prop) :
  P JNull → (∀ b, P (JBool b)) → (∀ n, P (JNum n)) → (∀ s, P (JStr s)) →
  (∀ l, Forall P l → P (JArr l)) →
  (∀ m, map_Forall (λ _, P) m → P (JObj m)) →
  ∀ v, P v.
Proof.
  intros Hnull Hbool Hnum Hstr Harr Hobj v.
  assert (∀ n v, (json_size v < n)%nat → P v) as Hsize; [|by eauto].
  clear v. induction n as [|n IH]; intros v Hv; [lia|].
  destruct v as [|b|z|s|l|m]; [done..| |].
  - apply Harr, Forall_forall. intros x Hx. apply IH.
    assert (json_size x ≤ sum_list (json_size <$> l))%nat
      by (by apply sum_list_elem_of, list_elem_of_fmap_2).
    simpl in Hv. lia.
  - apply Hobj. intros k x Hk. apply IH.
    assert (json_size x ≤ sum_list (map_to_list (json_size <$> m)).*2)%nat.
    { apply sum_list_elem_of, list_elem_of_fmap.
      exists (k, json_size x). split; [done|].
      apply elem_of_map_to_list. by rewrite lookup_fmap, Hk. }
    simpl in Hv. lia.
Qed.

(** *** What a printed value starts with *)

Definition starts_value (s : string) : bool :=
  match s with
  | String c _ => negb (is_ws c) && negb (Ascii.eqb c "]")
  | EmptyString => false
  end.

Definition starts_number (s : string) : bool :=
  match s with
  | String c _ => bool_decide (is_Some (digit_value c)) || Ascii.eqb c "-"
  | EmptyString => false
  end.

Lemma pretty_starts_number (n : Z) rest :
  starts_number (pretty n +:+ rest) = true.
Proof.
  destruct n as [|p|p]; [done| |done].
  change (pretty (Z.pos p)) with (pretty_N_go (N.pos p) EmptyString).
  destruct (pretty_N_go_leading (N.pos p) EmptyString) as (c & t & -> & Hc);
    [lia|].
  rewrite app_cons. simpl. unfold leading_digit in Hc.
  by destruct (digit_value c).
Qed.

Lemma starts_number_value s : starts_number s = true → starts_value s = true.
Proof.
  destruct s as [|c s]; [done|].
  by destruct c as [[] [] [] [] [] [] [] []].
Qed.

Lemma dumps_starts_value v rest : starts_value (dumps v +:+ rest) = true.
Proof.
  destruct v as [|[]|n|s|l|m]; try done.
  apply starts_number_value, pretty_starts_number.
Qed.

Lemma skip_ws_starts_value s : starts_value s = true → skip_ws s = s.
Proof.
  destruct s as [|c s]; [done|]. simpl.
  by destruct (is_ws c).
Qed.

Lemma dumps_length v : (1 ≤ String.length (dumps v))%nat.
Proof.
  pose proof (dumps_starts_value v EmptyString) as Hv.
  rewrite app_nil_end in Hv.
  destruct (dumps v); [done|simpl; lia].
Qed.

(** *** Joined items *)

Lemma join_items_cons t ts :
  join_items (t :: ts) =
    t +:+ match ts with [] => EmptyString | _ => ", " +:+ join_items ts end.
Proof. destruct ts; [by rewrite app_nil_end|done]. Qed.

Lemma length_join_items_elem t ts :
  t ∈ ts → (String.length t ≤ String.length (join_items ts))%nat.
Proof.
  induction 1 as [t ts|t u ts Hin IH]; rewrite join_items_cons, length_app.
  - lia.
  - destruct ts as [|u' ts]; [by apply elem_of_nil in Hin|].
    rewrite length_app. lia.
Qed.

Lemma length_join_items ts :
  Forall (λ t, 1 ≤ String.length t)%nat ts →
  (length ts ≤ String.length (join_items ts))%nat.
Proof.
  induction 1 as [|t ts Ht _ IH]; [done|].
  rewrite join_items_cons, length_app.
  destruct ts as [|u ts]; simpl in *; [lia|].
  rewrite length_app. simpl in *. lia.
Qed.

(** *** Arrays *)

(** A value scanner that reads back what [dumps] printed for [v]. *)
Definition reads_back (scan : string → option (json * string)) (v : json) :
    Prop :=
  ∀ rest, delimited rest = true → scan (dumps v +:+ rest) = Some (v, rest).

Lemma scan_elements_last scan fuel acc s v rest :
  scan s = Some (v, String "]" rest) →
  scan_elements scan (S fuel) acc s = Some (reverse (v :: acc), rest).
Proof. intros Hv. simpl. by rewrite Hv. Qed.

Lemma scan_elements_more scan fuel acc s v s' :
  scan s = Some (v, String "," (String " " s')) →
  starts_value s' = true →
  scan_elements scan (S fuel) acc s = scan_elements scan fuel (v :: acc) s'.
Proof.
  intros Hv Hs'. simpl. rewrite Hv. simpl.
  by rewrite skip_ws_starts_value.
Qed.

Lemma join_items_starts_value v l rest :
  starts_value (join_items (dumps <$> v :: l) +:+ rest) = true.
Proof.
  rewrite fmap_cons, join_items_cons, app_associative.
  apply dumps_starts_value.
Qed.

Lemma scan_elements_join scan fuel acc v l rest :
  Forall (reads_back scan) (v :: l) →
  (length (v :: l) ≤ fuel)%nat →
  scan_elements scan fuel acc
    (join_items (dumps <$> v :: l) +:+ String "]" rest)
  = Some (reverse acc ++ v :: l, rest).
Proof.
  revert fuel acc v. induction l as [|v' l IH]; intros fuel acc v Hall Hfuel;
    (destruct fuel as [|fuel]; [simpl in Hfuel; lia|]);
    apply Forall_cons in Hall as [Hv Hall].
  - rewrite (scan_elements_last _ _ _ _ v rest).
    + by rewrite reverse_cons.
    + by apply Hv.
  - rewrite fmap_cons, join_items_cons, fmap_cons, app_associative.
    rewrite (scan_elements_more _ _ _ _ v
               (join_items (dumps <$> v' :: l) +:+ String "]" rest)).
    + rewrite IH by (done || simpl in *; lia).
      by rewrite reverse_cons, <-app_assoc.
    + rewrite Hv; [|done]. by rewrite app_associative.
    + apply join_items_starts_value.
Qed.

(** *** Objects *)

Definition insert_member (acc : gmap string json) (kv : string * json) :
    gmap string json :=
  <[kv.1 := kv.2]> acc.

Lemma scan_members_last scan fuel acc k v s rest :
  starts_value s = true →
  scan s = Some (v, String "}" rest) →
  scan_members scan (S fuel) acc
    (String dquote (escape k +:+ String dquote (String ":" (String " " s))))
  = Some (<[k := v]> acc, rest).
Proof.
  intros Hs Hv. simpl. rewrite scanstring_escape. simpl.
  by rewrite skip_ws_starts_value, Hv.
Qed.

Lemma scan_members_more scan fuel acc k v s s' :
  starts_value s = true →
  scan s = Some (v, String "," (String " " (String dquote s'))) →
  scan_members scan (S fuel) acc
    (String dquote (escape k +:+ String dquote (String ":" (String " " s))))
  = scan_members scan fuel (<[k := v]> acc) (String dquote s').
Proof.
  intros Hs Hv. simpl. rewrite scanstring_escape. simpl.
  by rewrite skip_ws_starts_value, Hv.
Qed.

Definition member_of (kv : string * json) : string :=
  member (prod_map id dumps kv).

Lemma member_of_app k v rest :
  member_of (k, v) +:+ rest =
  String dquote
    (escape k +:+ String dquote (String ":" (String " " (dumps v +:+ rest)))).
Proof.
  unfold member_of, member. simpl.
  by rewrite app_associative, dumps_string_app, app_associative.
Qed.

Lemma length_dumps_array l :
  String.length (dumps (JArr l))
  = S (String.length (join_items (dumps <$> l)) + 1).
Proof.
  change (dumps (JArr l)) with ("[" +:+ join_items (dumps <$> l) +:+ "]").
  rewrite !length_app. simpl. lia.
Qed.

Lemma length_dumps_object m :
  String.length (dumps (JObj m))
  = S (String.length (join_items (member <$> map_to_list (dumps <$> m))) + 1).
Proof.
  change (dumps (JObj m))
    with ("{" +:+ join_items (member <$> map_to_list (dumps <$> m)) +:+ "}").
  rewrite !length_app. simpl. lia.
Qed.

Lemma members_start kv l rest :
  ∃ t, join_items (member_of <$> kv :: l) +:+ rest = String dquote t.
Proof.
  destruct kv as [k v].
  rewrite fmap_cons, join_items_cons, app_associative, member_of_app.
  by eexists.
Qed.

Lemma join_items_cons_cons t u ts :
  join_items (t :: u :: ts) = t +:+ ", " +:+ join_items (u :: ts).
Proof. done. Qed.

Lemma scan_members_join scan fuel acc kv l rest :
  Forall (λ kv, reads_back scan kv.2) (kv :: l) →
  (length (kv :: l) ≤ fuel)%nat →
  scan_members scan fuel acc
    (join_items (member_of <$> kv :: l) +:+ String "}" rest)
  = Some (foldl insert_member acc (kv :: l), rest).
Proof.
  revert fuel acc kv.
  induction l as [|kv' l IH]; intros fuel acc [k v] Hall Hfuel;
    (destruct fuel as [|fuel]; [simpl in Hfuel; lia|]);
    apply Forall_cons in Hall as [Hv Hall].
  - rewrite fmap_cons, join_items_cons, app_associative, member_of_app.
    apply scan_members_last; [apply dumps_starts_value|by apply Hv].
  - rewrite !fmap_cons, join_items_cons_cons, <-fmap_cons.
    rewrite !app_associative, member_of_app.
    destruct (members_start kv' l (String "}" rest)) as [t Ht].
    rewrite (scan_members_more _ _ _ _ v _ t).
    + rewrite <-Ht. rewrite IH by (done || simpl in *; lia). done.
    + apply dumps_starts_value.
    + rewrite Hv by done. by rewrite Ht.
Qed.

Lemma lookup_foldl_insert_member (l : list (string * json)) acc k :
  NoDup l.*1 →
  foldl insert_member acc l !! k =
    match (list_to_map l : gmap string json) !! k with
    | Some v => Some v
    | None => acc !! k
    end.
Proof.
  revert acc. induction l as [|[k' v'] l IH]; intros acc Hdup; [done|].
  rewrite fmap_cons in Hdup. apply NoDup_cons in Hdup as [Hk' Hdup].
  change (foldl insert_member acc ((k', v') :: l))
    with (foldl insert_member (<[k' := v']> acc) l).
  rewrite IH, list_to_map_cons by done.
  destruct (decide (k' = k)) as [->|Hne].
  - rewrite (not_elem_of_list_to_map_1 l k) by done.
    by rewrite !lookup_insert_eq.
  - by rewrite !lookup_insert_ne.
Qed.

Lemma foldl_insert_member_to_list (m : gmap string json) :
  foldl insert_member ∅ (map_to_list m) = m.
Proof.
  apply map_eq. intros k.
  rewrite lookup_foldl_insert_member by apply NoDup_fst_map_to_list.
  rewrite list_to_map_to_list, lookup_empty. by destruct (m !! k).
Qed.

(** *** Values *)

Lemma scan_once_number fuel s :
  starts_number s = true →
  scan_once (S fuel) s = prod_map JNum id <$> scan_number s.
Proof.
  destruct s as [|c s]; [done|].
  by destruct c as [[] [] [] [] [] [] [] []].
Qed.

Lemma scan_once_array fuel s :
  starts_value s = true →
  scan_once (S fuel) (String "[" s)
  = prod_map JArr id <$> scan_elements (scan_once fuel) fuel [] s.
Proof.
  intros Hs. simpl. rewrite skip_ws_starts_value by done.
  destruct s as [|c s]; [done|].
  by destruct c as [[] [] [] [] [] [] [] []].
Qed.

Lemma dumps_array_app l rest :
  dumps (JArr l) +:+ rest
  = String "[" (join_items (dumps <$> l) +:+ String "]" rest).
Proof.
  change (dumps (JArr l)) with ("[" +:+ join_items (dumps <$> l) +:+ "]").
  by rewrite !app_associative.
Qed.

Lemma dumps_object_app m rest :
  dumps (JObj m) +:+ rest
  = String "{" (join_items (member_of <$> map_to_list m) +:+ String "}" rest).
Proof.
  change (dumps (JObj m))
    with ("{" +:+ join_items (member <$> map_to_list (dumps <$> m)) +:+ "}").
  rewrite map_to_list_fmap, <-list_fmap_compose.
  by rewrite !app_associative.
Qed.

Lemma scan_once_object fuel kv l rest :
  scan_once (S fuel) (String "{" (join_items (member_of <$> kv :: l) +:+ rest))
  = prod_map JObj id
      <$> scan_members (scan_once fuel) fuel ∅
            (join_items (member_of <$> kv :: l) +:+ rest).
Proof.
  destruct (members_start kv l rest) as [t Ht]. by rewrite Ht.
Qed.

Lemma length_member_of kv :
  (String.length (dumps kv.2) ≤ String.length (member_of kv))%nat.
Proof.
  destruct kv as [k v]. unfold member_of, member. simpl.
  rewrite !length_app. lia.
Qed.

Lemma scan_once_dumps v :
  ∀ fuel, (String.length (dumps v) ≤ fuel)%nat → reads_back (scan_once fuel) v.
Proof.
  induction v as [|b|n|s|l IH|m IH] using json_ind; intros fuel Hfuel rest Hrest;
    (destruct fuel as [|fuel];
       [match type of Hfuel with
        | (String.length (dumps ?v) ≤ _)%nat => pose proof (dumps_length v)
        end; lia|]).
  - done.
  - by destruct b.
  - rewrite scan_once_number by apply pretty_starts_number.
    change (dumps (JNum n)) with (pretty n).
    by rewrite scan_number_pretty.
  - simpl dumps. rewrite dumps_string_app. simpl.
    by rewrite scanstring_escape.
  - rewrite dumps_array_app. destruct l as [|v l]; [done|].
    rewrite scan_once_array by apply join_items_starts_value.
    assert (String.length (join_items (dumps <$> v :: l)) ≤ fuel)%nat as Hlen.
    { rewrite length_dumps_array in Hfuel. lia. }
    rewrite scan_elements_join; [done| |].
    + apply Forall_forall. intros x Hx.
      eapply Forall_forall in IH; [|done]. apply IH.
      etrans; [|exact Hlen].
      by apply length_join_items_elem, list_elem_of_fmap_2.
    + etrans; [|exact Hlen]. rewrite <-(length_fmap dumps).
      apply length_join_items, Forall_fmap, Forall_forall.
      intros x _. apply dumps_length.
  - rewrite dumps_object_app.
    assert (String.length (join_items (member_of <$> map_to_list m)) ≤ fuel)%nat
      as Hlen.
    { rewrite length_dumps_object, map_to_list_fmap, <-list_fmap_compose
        in Hfuel.
      change (member ∘ prod_map id dumps) with member_of in Hfuel. lia. }
    assert (Forall (λ kv, reads_back (scan_once fuel) kv.2) (map_to_list m))
      as Hall.
    { apply Forall_forall. intros [k x] Hkx. simpl.
      eapply IH; [by apply elem_of_map_to_list|].
      etrans; [apply (length_member_of (k, x))|]. etrans; [|exact Hlen].
      by apply length_join_items_elem, list_elem_of_fmap_2. }
    assert (length (map_to_list m) ≤ fuel)%nat as Hcount.
    { etrans; [|exact Hlen]. rewrite <-(length_fmap member_of).
      apply length_join_items, Forall_fmap, Forall_forall.
      intros kv _. simpl. pose proof (length_member_of kv).
      pose proof (dumps_length kv.2). lia. }
    trans (Some (JObj (foldl insert_member ∅ (map_to_list m)), rest));
      [|by rewrite foldl_insert_member_to_list].
    revert Hall Hcount. generalize (map_to_list m). intros [|kv l] Hall Hcount.
    + done.
    + by rewrite scan_once_object, scan_members_join.
Qed.

Theorem loads_dumps v : loads (dumps v) = Some v.
Proof.
  unfold loads.
  pose proof (dumps_starts_value v EmptyString) as Hstart.
  rewrite app_nil_end in Hstart. rewrite skip_ws_starts_value by done.
  pose proof (scan_once_dumps v (String.length (dumps v)) (reflexivity _)
                EmptyString eq_refl) as Hscan.
  rewrite app_nil_end in Hscan. by rewrite Hscan.
Qed.

End py_json.

(** Python's [json] module on integer-valued documents. *)
#[export] Instance py_json : JsonCodec := {|
  json_loads := PyJson.loads;
  json_dumps := PyJson.dumps;
  json_loads_dumps := loads_dumps
|}.

(** ** plot.py: the claims *)

Section plot_claims.
Context `{JsonCodec}.

(** C3 (scenario A).  On the report with [PrimesSoFar] 100 and
    [GapCounter] [5,0,3,0,0] the last nonzero index is 2, indices 0..2 are
    retained, index 0 is dropped, and the figure saved as [plot_100.png]
    holds exactly the points (2, -inf) and (4, ln 3). *)
Theorem scenario_A_plot fs :
  info_json fs 100 [5; 0; 3; 0; 0] →
  Np.max (Np.nonzero [5; 0; 3; 0; 0]) = Return 2 ∧
  Np.slice_to (Np.int64 (2 + 1)) [5; 0; 3; 0; 0] = [5; 0; 3] ∧
  Np.slice_from 1 (Np.mul (Np.arange 3) 2) = [2; 4] ∧
  Np.log (Np.slice_from 1 [5; 0; 3]) = [NegInf; Log 3] ∧
  Plot.main fs =
    (Return tt,
     <["plot_100.png" :=
         Png {| title := "Log Prime Gaps (First 100 Primes)";
                xlabel := "Gap Size";
                ylabel := "log(n)";
                scatter_offsets := [(2, NegInf); (4, Log 3)] |}]> fs).
Proof.
  intros Hinfo. split_and!; [done..|].
  by rewrite (main_run _ _ _ Hinfo).
Qed.

(** C4 (scenario B).  When [GapCounter] holds no nonzero value, [np.max]
    raises on the empty index array: the run ends with that [ValueError]
    (the degenerate-input error the specification calls [DataError]) and
    the disk is left as it was, so no image is produced. *)
Theorem all_zero_fails fs text doc (counts : list Z) :
  fs !! "info.json" = Some (Text text) →
  json_loads text = Some (JObj doc) →
  is_Some (doc !! "PrimesSoFar") →
  doc !! "GapCounter" = Some (JArr (JNum <$> counts)) →
  Forall (λ c, c = 0) counts →
  Plot.main fs = (Raise ValueError, fs).
Proof.
  intros Hfile Hparse [primes Hprimes] Hgap Hzero.
  unfold Plot.main.
  erewrite bind_Return; [|by unfold open_r; rewrite Hfile].
  erewrite bind_Return; [|by unfold Json.load; rewrite Hparse].
  erewrite bind_lift_Return; [|by simpl; rewrite Hprimes].
  erewrite bind_lift_Return; [|by simpl; rewrite Hgap].
  erewrite bind_lift_Return.
  2:{ apply array_int64. eapply Forall_impl; [done|]. by intros c ->. }
  apply bind_lift_Raise.
  by apply max_nil_iff, nonzero_nil.
Qed.

(** C5 (truncation).  With [m] the highest nonzero index, the run saves a
    figure of exactly [m] points, the point at position [j] comes from
    index [j + 1] which is at most [m], and no point has the gap size of an
    index beyond [m]: the trailing zeros are not plotted. *)
Theorem trailing_zeros_not_plotted fs primes counts m :
  info_json fs primes counts → highest_nonzero counts m →
  ∃ fig,
    Plot.main fs = (Return tt, <[plot_path primes := Png fig]> fs) ∧
    length (scatter_offsets fig) = m ∧
    (∀ (j : nat) p, scatter_offsets fig !! j = Some p →
       (S j ≤ m)%nat ∧ p.1 = 2 * Z.of_nat (S j)) ∧
    (∀ (i : nat) y, (m < i)%nat → (2 * Z.of_nat i, y) ∉ scatter_offsets fig).
Proof.
  intros Hinfo Hm. pose proof (highest_nonzero_max _ _ Hm) as [_ Hlen].
  pose proof (info_json_short _ _ _ Hinfo) as Hshort.
  eexists. split; [by apply main_plots|]. simpl.
  split; [by apply length_offsets_of|].
  assert (∀ (j : nat) p, offsets_of counts (Z.of_nat m) !! j = Some p →
    (S j ≤ m)%nat ∧ p.1 = 2 * Z.of_nat (S j)) as Hpoint.
  { intros j p. rewrite lookup_offsets_of by done.
    case_decide; [|done].
    destruct (counts !! S j); intros; by simplify_eq/=. }
  split; [done|].
  intros i y Hi (j & Hj)%list_elem_of_lookup.
  apply Hpoint in Hj as [? Heq]. simpl in Heq. lia.
Qed.

(** C6 (gap doubling).  Every plotted point sits at position [j] of the
    scatter, carries the logarithm of the count that stood at index
    [j + 1] of the original [GapCounter], and has as gap size exactly twice
    that index. *)
Theorem gap_size_is_twice_index fs primes counts m :
  info_json fs primes counts → highest_nonzero counts m →
  ∃ fig,
    Plot.main fs = (Return tt, <[plot_path primes := Png fig]> fs) ∧
    ∀ (j : nat) x y, scatter_offsets fig !! j = Some (x, y) →
      ∃ c, counts !! S j = Some c ∧ y = Np.log1 c ∧ x = 2 * Z.of_nat (S j).
Proof.
  intros Hinfo Hm. pose proof (highest_nonzero_max _ _ Hm) as [_ Hlen].
  pose proof (info_json_short _ _ _ Hinfo) as Hshort.
  eexists. split; [by apply main_plots|]. simpl.
  intros j x y. rewrite lookup_offsets_of by done.
  case_decide; [|done].
  destruct (counts !! S j) as [c|]; [|done].
  intros [= <- <-]. eauto.
Qed.

(** C7 (index drop).  Whatever the [GapCounter] sequence, either the run
    raises before plotting and the disk is unchanged, or every plotted
    point comes from an index of at least 1: no point has gap size 0, the
    pair of index 0 is never plotted. *)
Theorem index_zero_never_plotted fs primes counts :
  info_json fs primes counts →
  Plot.main fs = (Raise ValueError, fs) ∨
  ∃ fig,
    Plot.main fs = (Return tt, <[plot_path primes := Png fig]> fs) ∧
    (∀ y, (0, y) ∉ scatter_offsets fig) ∧
    ∀ (j : nat) x y, scatter_offsets fig !! j = Some (x, y) →
      ∃ (i : nat) c, (1 ≤ i)%nat ∧ counts !! i = Some c ∧
        x = 2 * Z.of_nat i ∧ y = Np.log1 c.
Proof.
  intros Hinfo. rewrite (main_run _ _ _ Hinfo).
  pose proof (info_json_short _ _ _ Hinfo) as Hshort.
  destruct (max_nonzero_cases counts) as [[-> _]|[x Hx]]; [by left|].
  right. rewrite Hx.
  apply max_nonzero_inv in Hx as (m & c & -> & Hm & _).
  apply lookup_lt_Some in Hm.
  eexists. split; [done|]. simpl.
  assert (∀ (j : nat) x y, offsets_of counts (Z.of_nat m) !! j = Some (x, y) →
    ∃ (i : nat) c, (1 ≤ i)%nat ∧ counts !! i = Some c ∧
      x = 2 * Z.of_nat i ∧ y = Np.log1 c) as Hpoint.
  { intros j x y. rewrite lookup_offsets_of by done.
    case_decide; [|done].
    destruct (counts !! S j) as [c'|] eqn:Hc'; [|done].
    intros [= <- <-]. exists (S j), c'. split_and!; [lia|done..]. }
  split; [|done].
  intros y (j & Hj)%list_elem_of_lookup.
  apply Hpoint in Hj as (i & c' & Hi & _ & Hx & _). lia.
Qed.

(** C9 (logarithm of zero).  A retained count that is zero does not stop
    the run: its logarithm is minus infinity, the point is handed to the
    scatter with that value, and the figure is rendered and saved. *)
Theorem log_of_zero_is_plotted fs primes counts m (i : nat) :
  info_json fs primes counts → highest_nonzero counts m →
  (1 ≤ i ≤ m)%nat → counts !! i = Some 0 →
  Np.log1 0 = NegInf ∧
  ∃ fig,
    Plot.main fs = (Return tt, <[plot_path primes := Png fig]> fs) ∧
    scatter_offsets fig !! (i - 1)%nat = Some (2 * Z.of_nat i, NegInf).
Proof.
  intros Hinfo Hm Hi Hzero. split; [done|].
  pose proof (highest_nonzero_max _ _ Hm) as [_ Hlen].
  pose proof (info_json_short _ _ _ Hinfo) as Hshort.
  eexists. split; [by apply main_plots|]. simpl.
  rewrite lookup_offsets_of by done.
  replace (S (i - 1)) with i by lia.
  rewrite decide_True by lia. by rewrite Hzero.
Qed.

(** C10.  When index 0 holds the only nonzero entry, the run does not
    fail: truncation keeps index 0 alone, dropping it leaves no point, and
    the image is still written, with an empty scatter. *)
Theorem only_index_zero_plots_nothing fs primes counts :
  info_json fs primes counts → highest_nonzero counts 0 →
  Np.max (Np.nonzero counts) = Return 0 ∧
  length (Np.slice_to (Np.int64 (0 + 1)) counts) = 1%nat ∧
  Plot.main fs =
    (Return tt, <[plot_path primes := Png (plot_figure primes [])]> fs).
Proof.
  intros Hinfo Hm. pose proof (highest_nonzero_max _ _ Hm) as [Hmax Hlen].
  pose proof (info_json_short _ _ _ Hinfo) as Hshort.
  split; [done|]. split.
  - change (Np.int64 (0 + 1)) with (Z.of_nat 1).
    rewrite slice_to_take, length_take_le; [done|lia].
  - rewrite (main_plots _ _ _ _ Hinfo Hm).
    by rewrite (nil_length_inv (offsets_of counts (Z.of_nat 0)))
      by (by apply length_offsets_of).
Qed.

End plot_claims.

(** ** strip_prime_cache.py: what a run does *)

Section strip_run.
Context `{JsonCodec}.

Lemma strip_run infile outfile fs text doc :
  fs !! infile = Some (Text text) →
  json_loads text = Some (JObj doc) →
  StripPrimeCache.strip_precomputed_primes infile outfile fs =
    match doc !! "PrecomputedPrimes" with
    | Some _ =>
        (Return tt,
         <[outfile :=
             Text (json_dumps (JObj (delete "PrecomputedPrimes" doc)))]> fs)
    | None => (Raise (KeyError "PrecomputedPrimes"), fs)
    end.
Proof.
  intros Hfile Hparse. unfold StripPrimeCache.strip_precomputed_primes.
  erewrite bind_Return; [|by unfold open_r; rewrite Hfile].
  erewrite bind_Return; [|by unfold Json.load; rewrite Hparse].
  simpl. destruct (doc !! "PrecomputedPrimes") as [x|]; [|done].
  erewrite bind_lift_Return; [|done].
  unfold bind, open_w, Json.dump, write.
  by rewrite lookup_insert_eq, insert_insert_eq.
Qed.

End strip_run.

(** ** strip_prime_cache.py: the claims *)

Section strip_claims.
Context `{JsonCodec}.

(** C1 (round trip minus the field).  When the input file holds a JSON
    object that has the key [PrecomputedPrimes], the run succeeds, touches
    the output path only, and parsing the output file again yields the
    input mapping with that key deleted: the key is gone and every other
    key has the value it had. *)
Theorem strip_round_trip infile outfile fs text doc :
  fs !! infile = Some (Text text) →
  json_loads text = Some (JObj doc) →
  is_Some (doc !! "PrecomputedPrimes") →
  ∃ fs' doc',
    StripPrimeCache.strip_precomputed_primes infile outfile fs
      = (Return tt, fs') ∧
    (∀ path, path ≠ outfile → fs' !! path = fs !! path) ∧
    reparse outfile fs' = (Return (JObj doc'), fs') ∧
    doc' = delete "PrecomputedPrimes" doc ∧
    doc' !! "PrecomputedPrimes" = None ∧
    ∀ key, key ≠ "PrecomputedPrimes" → doc' !! key = doc !! key.
Proof.
  intros Hfile Hparse [x Hx].
  eexists _, (delete "PrecomputedPrimes" doc).
  split; [by rewrite (strip_run _ _ _ _ _ Hfile Hparse), Hx|].
  split_and!.
  - intros path Hpath. by rewrite lookup_insert_ne.
  - unfold reparse, bind, open_r, Json.load.
    by rewrite lookup_insert_eq, json_loads_dumps.
  - done.
  - apply lookup_delete_eq.
  - intros key Hkey. by apply lookup_delete_ne.
Qed.

(** C2 (missing field).  When the input file holds a JSON object without
    the key [PrecomputedPrimes], the deletion raises [KeyError] and the
    disk is exactly as before: nothing was written at the output path. *)
Theorem strip_missing_field infile outfile fs text doc :
  fs !! infile = Some (Text text) →
  json_loads text = Some (JObj doc) →
  doc !! "PrecomputedPrimes" = None →
  StripPrimeCache.strip_precomputed_primes infile outfile fs
    = (Raise (KeyError "PrecomputedPrimes"), fs).
Proof.
  intros Hfile Hparse Hmissing.
  by rewrite (strip_run _ _ _ _ _ Hfile Hparse), Hmissing.
Qed.

End strip_claims.

(** ** Evaluating the codec *)

Example loads_scenario_C :
  PyJson.loads scenario_C_text = Some (JObj scenario_C_doc).
Proof. reflexivity. Qed.

(** The keys come out in the order of [map_to_list]. *)
Example dumps_stripped :
  PyJson.dumps (JObj (delete "PrecomputedPrimes" scenario_C_doc))
  = "{" +:+ quoted "GapCounter" +:+ ": [0], "
        +:+ quoted "PrimesSoFar" +:+ ": 1}".
Proof. reflexivity. Qed.

Lemma scenario_A_info :
  info_json (H := py_json) scenario_A_disk 100 [5; 0; 3; 0; 0].
Proof.
  exists scenario_A_text,
    {[ "PrimesSoFar" := JNum 100;
       "GapCounter" := JArr (JNum <$> [5; 0; 3; 0; 0]) ]}.
  split_and!; [reflexivity..| |reflexivity].
  repeat (constructor; [reflexivity|]). constructor.
Defined.

Lemma scenario_A_highest : highest_nonzero [5; 0; 3; 0; 0] 2.
Proof.
  split; [by exists 3|].
  intros [|[|[|[|[|i]]]]] c Hc Hi; simplify_eq/=; done || lia.
Defined.

Lemma lone_info : info_json (H := py_json) lone_disk 7 [5; 0; 0].
Proof.
  exists lone_text,
    {[ "PrimesSoFar" := JNum 7; "GapCounter" := JArr (JNum <$> [5; 0; 0]) ]}.
  split_and!; [reflexivity..| |reflexivity].
  repeat (constructor; [reflexivity|]). constructor.
Defined.

Lemma lone_highest : highest_nonzero [5; 0; 0] 0.
Proof.
  split; [by exists 5|].
  intros [|[|[|i]]] c Hc Hi; simplify_eq/=; done || lia.
Defined.

(** ** The claims at concrete reports *)

Lemma scenario_A_plot_witness :
  info_json (H := py_json) scenario_A_disk 100 [5; 0; 3; 0; 0] ∧
  Plot.main (H := py_json) scenario_A_disk =
    (Return tt,
     <["plot_100.png" :=
         Png {| title := "Log Prime Gaps (First 100 Primes)";
                xlabel := "Gap Size";
                ylabel := "log(n)";
                scatter_offsets := [(2, NegInf); (4, Log 3)] |}]>
       scenario_A_disk).
Proof.
  split; [exact scenario_A_info|].
  apply (scenario_A_plot (H := py_json) scenario_A_disk scenario_A_info).
Defined.

Lemma all_zero_fails_witness :
  scenario_B_disk !! "info.json" = Some (Text scenario_B_text) ∧
  PyJson.loads scenario_B_text
    = Some (JObj {[ "PrimesSoFar" := JNum 50;
                    "GapCounter" := JArr (JNum <$> [0; 0; 0]) ]}) ∧
  Forall (λ c, c = 0) [0; 0; 0] ∧
  Plot.main (H := py_json) scenario_B_disk = (Raise ValueError, scenario_B_disk).
Proof.
  assert (Forall (λ c : Z, c = 0) [0; 0; 0]) as Hzero
    by (repeat (constructor; [reflexivity|]); constructor).
  split_and!; [reflexivity..|exact Hzero|].
  apply (all_zero_fails (H := py_json) scenario_B_disk scenario_B_text
           {[ "PrimesSoFar" := JNum 50;
              "GapCounter" := JArr (JNum <$> [0; 0; 0]) ]} [0; 0; 0]);
    [reflexivity..| |reflexivity|exact Hzero].
  exists (JNum 50). reflexivity.
Defined.

Lemma trailing_zeros_not_plotted_witness :
  info_json (H := py_json) scenario_A_disk 100 [5; 0; 3; 0; 0] ∧
  highest_nonzero [5; 0; 3; 0; 0] 2 ∧
  ∃ fig,
    Plot.main (H := py_json) scenario_A_disk
      = (Return tt, <[plot_path 100 := Png fig]> scenario_A_disk) ∧
    length (scatter_offsets fig) = 2%nat ∧
    (∀ (j : nat) p, scatter_offsets fig !! j = Some p →
       (S j ≤ 2)%nat ∧ p.1 = 2 * Z.of_nat (S j)) ∧
    (∀ (i : nat) y, (2 < i)%nat → (2 * Z.of_nat i, y) ∉ scatter_offsets fig).
Proof.
  split; [exact scenario_A_info|]. split; [exact scenario_A_highest|].
  apply (trailing_zeros_not_plotted (H := py_json) scenario_A_disk 100
           [5; 0; 3; 0; 0] 2 scenario_A_info scenario_A_highest).
Defined.

Lemma gap_size_is_twice_index_witness :
  info_json (H := py_json) scenario_A_disk 100 [5; 0; 3; 0; 0] ∧
  highest_nonzero [5; 0; 3; 0; 0] 2 ∧
  ∃ fig,
    Plot.main (H := py_json) scenario_A_disk
      = (Return tt, <[plot_path 100 := Png fig]> scenario_A_disk) ∧
    ∀ (j : nat) x y, scatter_offsets fig !! j = Some (x, y) →
      ∃ c, [5; 0; 3; 0; 0] !! S j = Some c ∧ y = Np.log1 c ∧
        x = 2 * Z.of_nat (S j).
Proof.
  split; [exact scenario_A_info|]. split; [exact scenario_A_highest|].
  apply (gap_size_is_twice_index (H := py_json) scenario_A_disk 100
           [5; 0; 3; 0; 0] 2 scenario_A_info scenario_A_highest).
Defined.

Lemma index_zero_never_plotted_witness :
  info_json (H := py_json) scenario_A_disk 100 [5; 0; 3; 0; 0] ∧
  (Plot.main (H := py_json) scenario_A_disk
     = (Raise ValueError, scenario_A_disk) ∨
   ∃ fig,
     Plot.main (H := py_json) scenario_A_disk
       = (Return tt, <[plot_path 100 := Png fig]> scenario_A_disk) ∧
     (∀ y, (0, y) ∉ scatter_offsets fig) ∧
     ∀ (j : nat) x y, scatter_offsets fig !! j = Some (x, y) →
       ∃ (i : nat) c, (1 ≤ i)%nat ∧ [5; 0; 3; 0; 0] !! i = Some c ∧
         x = 2 * Z.of_nat i ∧ y = Np.log1 c).
Proof.
  split; [exact scenario_A_info|].
  apply (index_zero_never_plotted (H := py_json) scenario_A_disk 100
           [5; 0; 3; 0; 0] scenario_A_info).
Defined.

Lemma log_of_zero_is_plotted_witness :
  info_json (H := py_json) scenario_A_disk 100 [5; 0; 3; 0; 0] ∧
  highest_nonzero [5; 0; 3; 0; 0] 2 ∧
  (1 ≤ 1 ≤ 2)%nat ∧
  [5; 0; 3; 0; 0] !! 1%nat = Some 0 ∧
  Np.log1 0 = NegInf ∧
  ∃ fig,
    Plot.main (H := py_json) scenario_A_disk
      = (Return tt, <[plot_path 100 := Png fig]> scenario_A_disk) ∧
    scatter_offsets fig !! (1 - 1)%nat = Some (2 * Z.of_nat 1, NegInf).
Proof.
  split; [exact scenario_A_info|]. split; [exact scenario_A_highest|].
  split; [lia|]. split; [reflexivity|].
  apply (log_of_zero_is_plotted (H := py_json) scenario_A_disk 100
           [5; 0; 3; 0; 0] 2 1 scenario_A_info scenario_A_highest);
    [lia|reflexivity].
Defined.

Lemma only_index_zero_plots_nothing_witness :
  info_json (H := py_json) lone_disk 7 [5; 0; 0] ∧
  highest_nonzero [5; 0; 0] 0 ∧
  Np.max (Np.nonzero [5; 0; 0]) = Return 0 ∧
  length (Np.slice_to (Np.int64 (0 + 1)) [5; 0; 0]) = 1%nat ∧
  Plot.main (H := py_json) lone_disk =
    (Return tt, <[plot_path 7 := Png (plot_figure 7 [])]> lone_disk).
Proof.
  split; [exact lone_info|]. split; [exact lone_highest|].
  apply (only_index_zero_plots_nothing (H := py_json) lone_disk 7 [5; 0; 0]
           lone_info lone_highest).
Defined.

Lemma strip_round_trip_witness :
  scenario_C_disk !! "info.json" = Some (Text scenario_C_text) ∧
  PyJson.loads scenario_C_text = Some (JObj scenario_C_doc) ∧
  is_Some (scenario_C_doc !! "PrecomputedPrimes") ∧
  ∃ fs' doc',
    StripPrimeCache.strip_precomputed_primes (H := py_json)
      "info.json" "small.json" scenario_C_disk = (Return tt, fs') ∧
    (∀ path, path ≠ "small.json" → fs' !! path = scenario_C_disk !! path) ∧
    reparse (H := py_json) "small.json" fs' = (Return (JObj doc'), fs') ∧
    doc' = delete "PrecomputedPrimes" scenario_C_doc ∧
    doc' !! "PrecomputedPrimes" = None ∧
    ∀ key, key ≠ "PrecomputedPrimes" → doc' !! key = scenario_C_doc !! key.
Proof.
  assert (is_Some (scenario_C_doc !! "PrecomputedPrimes")) as Hkey
    by (exists (JArr [JNum 2; JNum 3; JNum 5]); reflexivity).
  split_and!; [reflexivity..|exact Hkey|].
  apply (strip_round_trip (H := py_json) "info.json" "small.json"
           scenario_C_disk scenario_C_text scenario_C_doc);
    [reflexivity..|exact Hkey].
Defined.

Lemma strip_missing_field_witness :
  stripped_disk !! "small.json" = Some (Text stripped_text) ∧
  PyJson.loads stripped_text = Some (JObj stripped_doc) ∧
  stripped_doc !! "PrecomputedPrimes" = None ∧
  StripPrimeCache.strip_precomputed_primes (H := py_json)
    "small.json" "smaller.json" stripped_disk
    = (Raise (KeyError "PrecomputedPrimes"), stripped_disk).
Proof.
  split_and!; [reflexivity..|].
  apply (strip_missing_field (H := py_json) "small.json" "smaller.json"
           stripped_disk stripped_text stripped_doc); reflexivity.
Defined.

(** C8 as stated fails: run in place, with the output path equal to the
    input path, the script replaces the content of the input file by the
    stripped document. *)
Lemma strip_in_place_overwrites_input :
  scenario_C_disk !! "info.json" = Some (Text scenario_C_text) ∧
  PyJson.loads scenario_C_text = Some (JObj scenario_C_doc) ∧
  ∃ out,
    StripPrimeCache.strip_precomputed_primes (H := py_json)
      "info.json" "info.json" scenario_C_disk
      = (Return tt, {["info.json" := Text out]}) ∧
    String.eqb out scenario_C_text = false ∧
    PyJson.loads out = Some (JObj stripped_doc).
Proof.
  split_and!; [reflexivity..|].
  exists (PyJson.dumps (JObj stripped_doc)).
  split_and!; reflexivity.
Qed.

(** * Further properties of the two scripts *)

(** ** strip_precomputed_primes: every way a run can end *)

Section strip_more.
Context `{JsonCodec}.

(** The outcome of a run, by what the input path holds. *)
Lemma strip_cases infile outfile fs :
  StripPrimeCache.strip_precomputed_primes infile outfile fs =
    match fs !! infile with
    | None => (Raise (FileNotFoundError infile), fs)
    | Some (Png _) => (Raise UnicodeDecodeError, fs)
    | Some (Text text) =>
        match json_loads text with
        | None => (Raise JSONDecodeError, fs)
        | Some (JObj doc) =>
            match doc !! "PrecomputedPrimes" with
            | Some _ =>
                (Return tt,
                 <[outfile :=
                     Text (json_dumps
                             (JObj (delete "PrecomputedPrimes" doc)))]> fs)
            | None => (Raise (KeyError "PrecomputedPrimes"), fs)
            end
        | Some _ => (Raise TypeError, fs)
        end
    end.
Proof.
  destruct (fs !! infile) as [[text|fig]|] eqn:Hfile.
  - destruct (json_loads text) as [v|] eqn:Hparse.
    + destruct v as [|b|n|s|l|doc];
        try (unfold StripPrimeCache.strip_precomputed_primes, bind, open_r,
               Json.load; by rewrite Hfile, Hparse).
      by apply (strip_run _ _ _ text).
    + unfold StripPrimeCache.strip_precomputed_primes, bind, open_r,
        Json.load. by rewrite Hfile, Hparse.
  - unfold StripPrimeCache.strip_precomputed_primes, bind, open_r.
    by rewrite Hfile.
  - unfold StripPrimeCache.strip_precomputed_primes, bind, open_r.
    by rewrite Hfile.
Qed.

(** X1.  When nothing exists at the input path, [open] raises
    [FileNotFoundError] for that path and the disk is unchanged: the
    output is neither created nor truncated. *)
Theorem strip_missing_input infile outfile fs :
  fs !! infile = None →
  StripPrimeCache.strip_precomputed_primes infile outfile fs
    = (Raise (FileNotFoundError infile), fs).
Proof. intros Hfile. by rewrite strip_cases, Hfile. Qed.

(** X2.  When the input file is not valid JSON, [json.load] raises
    [JSONDecodeError] and the disk is unchanged. *)
Theorem strip_invalid_json infile outfile fs text :
  fs !! infile = Some (Text text) →
  json_loads text = None →
  StripPrimeCache.strip_precomputed_primes infile outfile fs
    = (Raise JSONDecodeError, fs).
Proof. intros Hfile Hparse. by rewrite strip_cases, Hfile, Hparse. Qed.

(** X3.  When the input file holds valid JSON that is not an object (an
    array, a string, a number, a boolean or null), [del] raises
    [TypeError] and the disk is unchanged. *)
Theorem strip_not_an_object infile outfile fs text v :
  fs !! infile = Some (Text text) →
  json_loads text = Some v →
  (∀ doc, v ≠ JObj doc) →
  StripPrimeCache.strip_precomputed_primes infile outfile fs
    = (Raise TypeError, fs).
Proof.
  intros Hfile Hparse Hv. rewrite strip_cases, Hfile, Hparse.
  destruct v as [|b|n|s|l|doc]; try done. by destruct (Hv doc).
Qed.

(** X6.  The file a successful run writes never holds the key: running the
    script on that output, to whatever path, raises [KeyError] and changes
    nothing. *)
Theorem strip_output_lacks_field infile outfile fs fs' :
  StripPrimeCache.strip_precomputed_primes infile outfile fs
    = (Return tt, fs') →
  ∀ outfile',
    StripPrimeCache.strip_precomputed_primes outfile outfile' fs'
    = (Raise (KeyError "PrecomputedPrimes"), fs').
Proof.
  rewrite strip_cases.
  destruct (fs !! infile) as [[text|fig]|]; [|done..].
  destruct (json_loads text) as [[|b|n|s|l|doc]|]; try done.
  destruct (doc !! "PrecomputedPrimes") as [x|]; [|done].
  intros [= <-] outfile'.
  by rewrite strip_cases, lookup_insert_eq, json_loads_dumps, lookup_delete_eq.
Qed.

End strip_more.

(** ** strip_precomputed_primes: paths that name the same file *)

Section strip_paths.
Context `{JsonCodec} `{Os.Names}.

(** The outcome of a run, by what the two paths name and the input file
    holds. *)
Lemma os_strip_cases infile outfile fs :
  Os.strip_precomputed_primes infile outfile fs =
    match Os.resolve infile with
    | None => (Raise (FileNotFoundError infile), fs)
    | Some input =>
        match fs !! input with
        | None => (Raise (FileNotFoundError infile), fs)
        | Some (Png _) => (Raise UnicodeDecodeError, fs)
        | Some (Text text) =>
            match json_loads text with
            | None => (Raise JSONDecodeError, fs)
            | Some (JObj doc) =>
                match doc !! "PrecomputedPrimes" with
                | None => (Raise (KeyError "PrecomputedPrimes"), fs)
                | Some _ =>
                    match Os.resolve outfile with
                    | None => (Raise (FileNotFoundError outfile), fs)
                    | Some output =>
                        (Return tt,
                         <[output :=
                             Text (json_dumps
                                     (JObj (delete "PrecomputedPrimes" doc)))]>
                           fs)
                    end
                end
            | Some _ => (Raise TypeError, fs)
            end
        end
    end.
Proof.
  unfold Os.strip_precomputed_primes, bind, Os.open_r, Json.load, ret, raise,
    lift, Os.open_w, Json.dump, write.
  destruct (Os.resolve infile) as [input|]; [|done].
  destruct (fs !! input) as [[text|fig]|]; [|done..].
  destruct (json_loads text) as [[|b|n|s|l|doc]|]; try done. simpl.
  destruct (doc !! "PrecomputedPrimes") as [x|]; [|done].
  destruct (Os.resolve outfile) as [output|]; [|done].
  by rewrite lookup_insert_eq, insert_insert_eq.
Qed.

(** C8, as amended (input file untouched).  Whenever the output path does
    not name the file the input path names, under whatever spelling, the
    content of that file after the run is the content it had before,
    whatever the outcome. *)
Theorem strip_keeps_input_file infile outfile fs input :
  Os.resolve infile = Some input →
  Os.resolve outfile ≠ Some input →
  (Os.strip_precomputed_primes infile outfile fs).2 !! input = fs !! input.
Proof.
  intros Hin Hout. rewrite os_strip_cases, Hin.
  destruct (fs !! input) as [[text|fig]|] eqn:Hfile; [|done..].
  destruct (json_loads text) as [[|b|n|s|l|doc]|]; try done.
  destruct (doc !! "PrecomputedPrimes") as [x|]; [|done].
  destruct (Os.resolve outfile) as [output|]; [|done]. simpl.
  rewrite <-Hfile. apply lookup_insert_ne. by intros ->.
Qed.

(** X4.  A run succeeds only when the input path names a file whose text
    parses to a JSON object with the key [PrecomputedPrimes] and the
    output path names a place for a file; and a run that raises, for
    whichever of these reasons, leaves the whole disk as it was: the output
    is neither created nor truncated. *)
Theorem strip_success_and_failure infile outfile fs :
  ((Os.strip_precomputed_primes infile outfile fs).1 = Return tt →
     ∃ input output text doc,
       Os.resolve infile = Some input ∧
       fs !! input = Some (Text text) ∧
       json_loads text = Some (JObj doc) ∧
       is_Some (doc !! "PrecomputedPrimes") ∧
       Os.resolve outfile = Some output) ∧
  (∀ e, (Os.strip_precomputed_primes infile outfile fs).1 = Raise e →
     (Os.strip_precomputed_primes infile outfile fs).2 = fs).
Proof.
  rewrite os_strip_cases.
  destruct (Os.resolve infile) as [input|]; [|done].
  destruct (fs !! input) as [[text|fig]|] eqn:Hfile; [|done..].
  destruct (json_loads text) as [[|b|n|s|l|doc]|] eqn:Hparse; try done.
  destruct (doc !! "PrecomputedPrimes") as [x|] eqn:Hkey; [|done].
  destruct (Os.resolve outfile) as [output|]; [|done].
  split; [|done]. intros _. by exists input, output, text, doc.
Qed.

(** X5 (idempotence).  When the output path does not name the input file,
    running the script a second time ends as the first run did and leaves
    the disk the first run produced. *)
Theorem strip_idempotent_on_files infile outfile fs :
  (∀ input, Os.resolve infile = Some input →
     Os.resolve outfile ≠ Some input) →
  Os.strip_precomputed_primes infile outfile
    (Os.strip_precomputed_primes infile outfile fs).2
  = Os.strip_precomputed_primes infile outfile fs.
Proof.
  intros Hne. rewrite (os_strip_cases infile outfile fs).
  destruct (Os.resolve infile) as [input|] eqn:Hin; simpl;
    [|by rewrite os_strip_cases, Hin].
  specialize (Hne input eq_refl).
  destruct (fs !! input) as [[text|fig]|] eqn:Hfile; simpl;
    try (by rewrite os_strip_cases, Hin, Hfile).
  destruct (json_loads text) as [[|b|n|s|l|doc]|] eqn:Hparse; simpl;
    try (by rewrite os_strip_cases, Hin, Hfile, Hparse).
  destruct (doc !! "PrecomputedPrimes") as [x|] eqn:Hkey; simpl;
    [|by rewrite os_strip_cases, Hin, Hfile, Hparse, Hkey].
  destruct (Os.resolve outfile) as [output|] eqn:Hout; simpl;
    [|by rewrite os_strip_cases, Hin, Hfile, Hparse, Hkey, Hout].
  rewrite os_strip_cases, Hin, lookup_insert_ne by (by intros ->).
  by rewrite Hfile, Hparse, Hkey, Hout, insert_insert_eq.
Qed.

(** X7.  What the output file held before does not matter: when the output
    path does not name the input file, two runs that differ only in the old
    content of the output file end the same way, and when they succeed
    they leave the same disk. *)
Theorem strip_ignores_old_output infile outfile fs output old1 old2 :
  Os.resolve outfile = Some output →
  Os.resolve infile ≠ Some output →
  (Os.strip_precomputed_primes infile outfile (<[output := old1]> fs)).1
  = (Os.strip_precomputed_primes infile outfile (<[output := old2]> fs)).1 ∧
  ((Os.strip_precomputed_primes infile outfile (<[output := old1]> fs)).1
   = Return tt →
   (Os.strip_precomputed_primes infile outfile (<[output := old1]> fs)).2
   = (Os.strip_precomputed_primes infile outfile (<[output := old2]> fs)).2).
Proof.
  intros Hout Hne. rewrite !os_strip_cases, Hout.
  destruct (Os.resolve infile) as [input|]; [|done].
  rewrite !lookup_insert_ne by (by intros ->).
  destruct (fs !! input) as [[text|fig]|]; [|done..].
  destruct (json_loads text) as [[|b|n|s|l|doc]|]; try done.
  destruct (doc !! "PrecomputedPrimes") as [x|]; [|done]. simpl.
  split; [done|]. intros _. by rewrite !insert_insert_eq.
Qed.

End strip_paths.

(** With every path the name of its own file, the run is the one of the
    module [StripPrimeCache]. *)
Lemma os_strip_plain `{JsonCodec} infile outfile fs :
  Os.strip_precomputed_primes (H0 := Os.plain) infile outfile fs
  = StripPrimeCache.strip_precomputed_primes infile outfile fs.
Proof.
  rewrite os_strip_cases, strip_cases. simpl.
  destruct (fs !! infile) as [[text|fig]|]; [|done..].
  by destruct (json_loads text) as [[|b|n|s|l|doc]|].
Qed.

(** ** plot.py: every way a run can end *)

Section plot_more.
Context `{JsonCodec}.

Ltac run_main Hfs' :=
  unfold Plot.main, bind, open_r, Json.load, lift, ret, raise;
  rewrite Hfs';
  repeat match goal with
         | Heq : ?x = _ |- context [?x] => rewrite Heq; simpl
         end.

(** A run is decided by what [info.json] holds: on every disk with that
    content it raises the same exception, or saves the same figure under
    the same name. *)
Lemma main_local (fs : disk) :
  ∃ o : outcome (Z * figure),
    ∀ fs', fs' !! "info.json" = fs !! "info.json" →
      Plot.main fs' =
        match o with
        | Return (n, fig) => (Return tt, <[plot_path n := Png fig]> fs')
        | Raise e => (Raise e, fs')
        | Unmodelled => (Unmodelled, fs')
        end.
Proof.
  destruct (fs !! "info.json") as [[text|pic]|] eqn:Hfile;
    [|exists (Raise UnicodeDecodeError); intros fs' Hfs'; by run_main Hfs'
     |exists (Raise (FileNotFoundError "info.json")); intros fs' Hfs';
      by run_main Hfs'].
  destruct (json_loads text) as [info|] eqn:Hparse;
    [|exists (Raise JSONDecodeError); intros fs' Hfs'; by run_main Hfs'].
  destruct (getitem info "PrimesSoFar") as [num|e|] eqn:Hnum;
    [|exists (Raise e); intros fs' Hfs'; by run_main Hfs'
     |exists Unmodelled; intros fs' Hfs'; by run_main Hfs'].
  destruct (getitem info "GapCounter") as [gc|e|] eqn:Hgc;
    [|exists (Raise e); intros fs' Hfs'; by run_main Hfs'
     |exists Unmodelled; intros fs' Hfs'; by run_main Hfs'].
  destruct (Np.array gc) as [ys|e|] eqn:Hys;
    [|exists (Raise e); intros fs' Hfs'; by run_main Hfs'
     |exists Unmodelled; intros fs' Hfs'; by run_main Hfs'].
  destruct (Np.max (Np.nonzero ys)) as [last|e|] eqn:Hlast;
    [|exists (Raise e); intros fs' Hfs'; by run_main Hfs'
     |exists Unmodelled; intros fs' Hfs'; by run_main Hfs'].
  destruct num as [|b|n|s|l|m];
    try (exists Unmodelled; intros fs' Hfs'; by run_main Hfs').
  exists (Return (n, plot_figure n (offsets_of ys last))).
  intros fs' Hfs'. run_main Hfs'.
  unfold Plot.scatter. by rewrite decide_True by apply length_offsets_sides.
Qed.

(** The name of a plot never is the name of the report. *)
Lemma plot_path_not_report n : plot_path n ≠ "info.json".
Proof. done. Qed.

(** X8.  When the working directory has no [info.json], the run raises
    [FileNotFoundError] for that name and writes nothing. *)
Theorem plot_missing_report fs :
  fs !! "info.json" = None →
  Plot.main fs = (Raise (FileNotFoundError "info.json"), fs).
Proof.
  intros Hfile. unfold Plot.main, bind, open_r. by rewrite Hfile.
Qed.

(** X9.  The two fields are read in the order of the script: a report
    without [PrimesSoFar] raises [KeyError] for that key whatever else it
    holds, a report with it but without [GapCounter] raises [KeyError] for
    [GapCounter]; in both cases nothing is written. *)
Theorem plot_missing_field fs text doc :
  fs !! "info.json" = Some (Text text) →
  json_loads text = Some (JObj doc) →
  (doc !! "PrimesSoFar" = None →
     Plot.main fs = (Raise (KeyError "PrimesSoFar"), fs)) ∧
  (is_Some (doc !! "PrimesSoFar") → doc !! "GapCounter" = None →
     Plot.main fs = (Raise (KeyError "GapCounter"), fs)).
Proof.
  intros Hfile Hparse. split.
  - intros Hprimes.
    unfold Plot.main, bind, open_r, Json.load, lift, ret.
    rewrite Hfile. simpl. rewrite Hparse. simpl. by rewrite Hprimes.
  - intros [x Hprimes] Hgap.
    unfold Plot.main, bind, open_r, Json.load, lift, ret.
    rewrite Hfile. simpl. rewrite Hparse. simpl. rewrite Hprimes.
    by rewrite Hgap.
Qed.

(** X10.  A report that is not valid JSON raises [JSONDecodeError]; valid
    JSON that is not an object raises [TypeError] at the first subscript;
    in both cases nothing is written. *)
Theorem plot_not_an_object fs text :
  fs !! "info.json" = Some (Text text) →
  (json_loads text = None → Plot.main fs = (Raise JSONDecodeError, fs)) ∧
  (∀ v, json_loads text = Some v → (∀ doc, v ≠ JObj doc) →
     Plot.main fs = (Raise TypeError, fs)).
Proof.
  intros Hfile. split.
  - intros Hparse. unfold Plot.main, bind, open_r, Json.load, raise.
    rewrite Hfile. simpl. by rewrite Hparse.
  - intros v Hparse Hv.
    unfold Plot.main, bind, open_r, Json.load, lift, ret.
    rewrite Hfile. simpl. rewrite Hparse. simpl.
    destruct v as [|b|n|s|l|doc]; try done. by destruct (Hv doc).
Qed.

(** X11.  The plotter does not modify the report it reads: after a run on
    a report of integer counts, [info.json] holds what it held before. *)
Theorem plot_keeps_report_file fs primes counts :
  info_json fs primes counts →
  (Plot.main fs).2 !! "info.json" = fs !! "info.json".
Proof.
  intros Hinfo. rewrite (main_run _ _ _ Hinfo).
  destruct (Np.max (Np.nonzero counts)) as [last|e|]; simpl; [|done..].
  apply lookup_insert_ne, plot_path_not_report.
Qed.

(** X12.  Whatever exception a run raises, it raises it before the figure
    is saved: the whole disk is as it was, no image is created and an older
    image is not touched. *)
Theorem plot_raise_writes_nothing fs e :
  (Plot.main fs).1 = Raise e → (Plot.main fs).2 = fs.
Proof.
  destruct (main_local fs) as [o Ho]. rewrite (Ho fs eq_refl).
  by destruct o as [[n fig]|e'|].
Qed.

(** X13 (idempotence).  Running the plotter again on the disk it left
    ends the same way and leaves the same disk: the second run reads the
    same report and saves the same figure over the first. *)
Theorem plot_idempotent fs :
  Plot.main (Plot.main fs).2 = Plot.main fs.
Proof.
  destruct (main_local fs) as [o Ho]. rewrite (Ho fs eq_refl).
  destruct o as [[n fig]|e|]; simpl; [|by rewrite (Ho fs eq_refl)..].
  rewrite Ho by apply lookup_insert_ne, plot_path_not_report.
  by rewrite insert_insert_eq.
Qed.

End plot_more.

(** ** plot.py: what the picture depends on *)

Section plot_picture.
Context `{JsonCodec}.

Lemma offsets_of_agree (counts1 counts2 : list Z) (m : nat) :
  (m < length counts1)%nat → Z.of_nat (length counts1) < 2 ^ 62 →
  (m < length counts2)%nat → Z.of_nat (length counts2) < 2 ^ 62 →
  (∀ i : nat, (1 ≤ i ≤ m)%nat → counts1 !! i = counts2 !! i) →
  offsets_of counts1 (Z.of_nat m) = offsets_of counts2 (Z.of_nat m).
Proof.
  intros Hm1 Hs1 Hm2 Hs2 Hagree. apply list_eq. intros j.
  rewrite !lookup_offsets_of by done.
  case_decide; [|done]. by rewrite Hagree by lia.
Qed.

(** X14.  The picture depends on the counts at the indices 1 to [m] only,
    [m] being the highest nonzero index: two reports of the same number of
    primes that agree there give the same figure under the same name,
    whatever stands at index 0 and however many zeros follow index [m]. *)
Theorem plot_depends_on_retained_counts fs1 fs2 primes counts1 counts2 m :
  info_json fs1 primes counts1 → info_json fs2 primes counts2 →
  highest_nonzero counts1 m → highest_nonzero counts2 m →
  (∀ i : nat, (1 ≤ i ≤ m)%nat → counts1 !! i = counts2 !! i) →
  ∃ fig,
    Plot.main fs1 = (Return tt, <[plot_path primes := Png fig]> fs1) ∧
    Plot.main fs2 = (Return tt, <[plot_path primes := Png fig]> fs2).
Proof.
  intros Hinfo1 Hinfo2 Hm1 Hm2 Hagree.
  pose proof (highest_nonzero_max _ _ Hm1) as [_ Hlen1].
  pose proof (highest_nonzero_max _ _ Hm2) as [_ Hlen2].
  pose proof (info_json_short _ _ _ Hinfo1) as Hshort1.
  pose proof (info_json_short _ _ _ Hinfo2) as Hshort2.
  eexists. split; [by apply main_plots|].
  rewrite (offsets_of_agree counts1 counts2) by done.
  by apply main_plots.
Qed.

(** X15.  When no count is negative, no plotted value is not-a-number:
    each is minus infinity (a zero count) or the logarithm of a positive
    count; and the last point, the one of the highest nonzero index, is
    never minus infinity. *)
Theorem plot_of_nonnegative_counts fs primes counts m :
  info_json fs primes counts → highest_nonzero counts m →
  Forall (λ c, 0 ≤ c) counts →
  ∃ fig,
    Plot.main fs = (Return tt, <[plot_path primes := Png fig]> fs) ∧
    (∀ x y, (x, y) ∈ scatter_offsets fig →
       y = NegInf ∨ ∃ c, 0 < c ∧ y = Log c) ∧
    ((1 ≤ m)%nat →
       ∃ c, 0 < c ∧ counts !! m = Some c ∧
         last (scatter_offsets fig) = Some (2 * Z.of_nat m, Log c)).
Proof.
  intros Hinfo Hm Hpos.
  pose proof (highest_nonzero_max _ _ Hm) as [_ Hlen].
  pose proof (info_json_short _ _ _ Hinfo) as Hshort.
  eexists. split; [by apply main_plots|]. simpl. split.
  - intros x y (j & Hj)%list_elem_of_lookup. revert Hj.
    rewrite lookup_offsets_of by done. case_decide; [|done].
    destruct (counts !! S j) as [c|] eqn:Hc; [|done].
    intros [= <- <-]. unfold Np.log1.
    destruct (decide (c = 0)); [by left|]. right.
    assert (0 ≤ c) by (by eapply (Forall_lookup_1 _ _ _ _ Hpos)).
    rewrite decide_False by lia. exists c. split; [lia|done].
  - intros Hm1. destruct Hm as [(c & Hc & Hc0) _].
    assert (0 ≤ c) by (by eapply (Forall_lookup_1 _ _ _ _ Hpos)).
    exists c. split_and!; [lia|done|].
    rewrite last_lookup, length_offsets_of, lookup_offsets_of by done.
    replace (S (Nat.pred m)) with m by lia.
    rewrite decide_True, Hc by lia. simpl. unfold Np.log1.
    by rewrite !decide_False by lia.
Qed.

(** X16.  A negative count is kept like any nonzero entry, and its
    logarithm is not-a-number: the point is handed to the scatter with that
    value and the figure is saved, nothing raises. *)
Theorem negative_count_plots_nan fs primes counts m (i : nat) c :
  info_json fs primes counts → highest_nonzero counts m →
  (1 ≤ i ≤ m)%nat → counts !! i = Some c → c < 0 →
  ∃ fig,
    Plot.main fs = (Return tt, <[plot_path primes := Png fig]> fs) ∧
    scatter_offsets fig !! (i - 1)%nat = Some (2 * Z.of_nat i, NaN).
Proof.
  intros Hinfo Hm Hi Hc Hneg.
  pose proof (highest_nonzero_max _ _ Hm) as [_ Hlen].
  pose proof (info_json_short _ _ _ Hinfo) as Hshort.
  eexists. split; [by apply main_plots|]. simpl.
  rewrite lookup_offsets_of by done.
  replace (S (i - 1)) with i by lia.
  rewrite decide_True, Hc by lia. simpl. unfold Np.log1.
  rewrite decide_False by lia. by rewrite decide_True.
Qed.

Lemma app_cancel_tail (s1 s2 t : string) : s1 +:+ t = s2 +:+ t → s1 = s2.
Proof.
  revert s2. induction s1 as [|c s1 IH]; intros [|c' s2] Heq; [done|..].
  - apply (f_equal String.length) in Heq.
    rewrite !length_app in Heq. simpl in Heq. lia.
  - apply (f_equal String.length) in Heq.
    rewrite !length_app in Heq. simpl in Heq. lia.
  - rewrite !app_cons in Heq. injection Heq as -> Heq. f_equal. by apply IH.
Qed.

Lemma plot_path_inj n1 n2 : plot_path n1 = plot_path n2 → n1 = n2.
Proof.
  unfold plot_path. intros Heq%(inj (String.app _)).
  by apply app_cancel_tail, (inj pretty) in Heq.
Qed.

(** X17.  Reports of different prime counts never overwrite each other's
    picture: plotting a report of [primes] primes leaves the plot file of
    every other count as it was. *)
Theorem plot_of_other_count_untouched fs primes counts other :
  info_json fs primes counts → other ≠ primes →
  (Plot.main fs).2 !! plot_path other = fs !! plot_path other.
Proof.
  intros Hinfo Hother. rewrite (main_run _ _ _ Hinfo).
  destruct (Np.max (Np.nonzero counts)) as [last|e|]; simpl; [|done..].
  apply lookup_insert_ne. by intros ?%plot_path_inj.
Qed.

(** X18.  Stripping the report in place does not change what the plotter
    does with it: the stripped [info.json] still holds both fields, the run
    ends the same way, and every other file, the saved picture included,
    comes out the same. *)
Theorem strip_then_plot fs fs' primes counts :
  info_json fs primes counts →
  StripPrimeCache.strip_precomputed_primes "info.json" "info.json" fs
    = (Return tt, fs') →
  info_json fs' primes counts ∧
  (Plot.main fs').1 = (Plot.main fs).1 ∧
  ∀ path, path ≠ "info.json" →
    (Plot.main fs').2 !! path = (Plot.main fs).2 !! path.
Proof.
  intros Hinfo Hstrip.
  assert (info_json fs' primes counts ∧
          ∀ path, path ≠ "info.json" → fs' !! path = fs !! path)
    as [Hinfo' Hframe].
  { destruct Hinfo as (text & doc & Hfile & Hparse & Hprimes & Hgap & Hfit).
    rewrite strip_cases, Hfile, Hparse in Hstrip.
    destruct (doc !! "PrecomputedPrimes") as [x|]; [|done].
    injection Hstrip as <-. split.
    - eexists _, (delete "PrecomputedPrimes" doc).
      rewrite lookup_insert_eq, json_loads_dumps, !lookup_delete_ne by done.
      done.
    - intros path Hpath. by rewrite lookup_insert_ne. }
  rewrite (main_run _ _ _ Hinfo), (main_run _ _ _ Hinfo').
  destruct (Np.max (Np.nonzero counts)) as [last|e|]; simpl;
    [|by split_and!..].
  split_and!; [done..|]. intros path Hpath.
  destruct (decide (path = plot_path primes)) as [->|Hne].
  - by rewrite !lookup_insert_eq.
  - rewrite !lookup_insert_ne by done. by apply Hframe.
Qed.

End plot_picture.

(** ** strip_prime_cache.py: the command line *)

Section command_line.
Context `{JsonCodec}.

Lemma plain_is_modelled t :
  StripMain.is_plain t = true → StripMain.modelled t = true.
Proof. intros Ht. unfold StripMain.modelled. by rewrite Ht. Qed.

(** X19.  Given both options, each followed by its path, [main] does what
    [strip_precomputed_primes] does on these two paths, and the order in
    which the two options are written makes no difference. *)
Theorem main_with_both_options fi fo a b fs :
  StripMain.is_infile fi = true → StripMain.is_outfile fo = true →
  StripMain.is_plain a = true → StripMain.is_plain b = true →
  StripMain.main [fi; a; fo; b] fs
    = bind (StripPrimeCache.strip_precomputed_primes a b)
        (λ _, ret StripMain.Finished) fs ∧
  StripMain.main [fo; b; fi; a] fs = StripMain.main [fi; a; fo; b] fs.
Proof.
  intros Hfi Hfo Ha Hb.
  apply bool_decide_eq_true in Hfi. apply bool_decide_eq_true in Hfo.
  pose proof (plain_is_modelled _ Ha) as Ha'.
  pose proof (plain_is_modelled _ Hb) as Hb'.
  destruct Hfi as [->| ->], Hfo as [->| ->];
    unfold StripMain.main, StripMain.parse_args; simpl;
    rewrite Ha, Hb, Ha', Hb'; simpl; done.
Qed.

Lemma consume_missing_option n :
  ∀ argv infile outfile extras,
    (length argv ≤ n)%nat →
    Forall (λ t, StripMain.is_help t = false) argv →
    (infile = None ∧ Forall (λ t, StripMain.is_infile t = false) argv) ∨
    (outfile = None ∧ Forall (λ t, StripMain.is_outfile t = false) argv) →
    StripMain.consume infile outfile extras argv = StripMain.Exit 2.
Proof.
  induction n as [|n IH]; intros [|t rest] infile outfile extras Hlen Hhelp Hmiss;
    simpl in Hlen; try lia.
  - simpl. by destruct Hmiss as [[-> _]|[-> _]]; [|destruct infile].
  - simpl. by destruct Hmiss as [[-> _]|[-> _]]; [|destruct infile].
  - apply Forall_cons in Hhelp as [Ht Hhelp]. simpl. rewrite Ht.
    destruct (StripMain.is_infile t) eqn:Hi.
    + destruct Hmiss as [[_ Hno]|[-> Hno]].
      { apply Forall_cons in Hno as [Hno _]. congruence. }
      apply Forall_cons in Hno as [_ Hno].
      destruct rest as [|v rest']; [done|].
      destruct (StripMain.is_plain v); [|done].
      apply Forall_cons in Hhelp as [_ Hhelp].
      apply Forall_cons in Hno as [_ Hno].
      apply IH; [simpl in Hlen; lia|done|by right].
    + destruct (StripMain.is_outfile t) eqn:Ho.
      * destruct Hmiss as [[-> Hno]|[_ Hno]].
        2:{ apply Forall_cons in Hno as [Hno _]. congruence. }
        apply Forall_cons in Hno as [_ Hno].
        destruct rest as [|v rest']; [done|].
        destruct (StripMain.is_plain v); [|done].
        apply Forall_cons in Hhelp as [_ Hhelp].
        apply Forall_cons in Hno as [_ Hno].
        apply IH; [simpl in Hlen; lia|done|by left].
      * apply IH; [lia|done|].
        destruct Hmiss as [[-> Hno]|[-> Hno]];
          apply Forall_cons in Hno as [_ Hno]; [by left|by right].
Qed.

(** X20.  Both options are required: when the arguments ask for no help
    and never name the input option, or never name the output option, the
    script exits with status 2 before any file is opened, the disk
    untouched. *)
Theorem main_requires_both_options argv fs :
  forallb StripMain.modelled argv = true →
  Forall (λ t, StripMain.is_help t = false) argv →
  Forall (λ t, StripMain.is_infile t = false) argv ∨
  Forall (λ t, StripMain.is_outfile t = false) argv →
  StripMain.main argv fs = (Return (StripMain.SystemExit 2), fs).
Proof.
  intros Hmod Hhelp Hmiss.
  unfold StripMain.main, StripMain.parse_args. rewrite Hmod. simpl.
  rewrite (consume_missing_option (length argv)); [done..|].
  destruct Hmiss; [by left|by right].
Qed.

(** X21.  A word that belongs to no option is refused: put before or after
    a complete pair of options it makes the script exit with status 2, the
    disk untouched, where the same arguments without it would have run. *)
Theorem main_refuses_stray_word fi fo a b x fs :
  StripMain.is_infile fi = true → StripMain.is_outfile fo = true →
  StripMain.is_plain a = true → StripMain.is_plain b = true →
  StripMain.is_plain x = true →
  StripMain.main [fi; a; fo; b; x] fs = (Return (StripMain.SystemExit 2), fs) ∧
  StripMain.main [x; fi; a; fo; b] fs = (Return (StripMain.SystemExit 2), fs).
Proof.
  intros Hfi Hfo Ha Hb Hx.
  apply bool_decide_eq_true in Hfi. apply bool_decide_eq_true in Hfo.
  pose proof (plain_is_modelled _ Ha) as Ha'.
  pose proof (plain_is_modelled _ Hb) as Hb'.
  pose proof (plain_is_modelled _ Hx) as Hx'.
  assert (StripMain.is_help x = false ∧ StripMain.is_infile x = false ∧
          StripMain.is_outfile x = false) as (Hx1 & Hx2 & Hx3).
  { unfold StripMain.is_help, StripMain.is_infile, StripMain.is_outfile.
    split_and!; apply bool_decide_eq_false; intros [->| ->]; done. }
  destruct Hfi as [->| ->], Hfo as [->| ->];
    unfold StripMain.main, StripMain.parse_args; simpl;
    rewrite ?Ha, ?Hb, ?Ha', ?Hb', ?Hx', ?Hx1, ?Hx2, ?Hx3; simpl;
    rewrite ?Ha, ?Hb; done.
Qed.

End command_line.

(** ** The further properties at concrete reports *)

Lemma strip_missing_input_witness :
  scenario_C_disk !! "absent.json" = None ∧
  StripPrimeCache.strip_precomputed_primes (H := py_json)
    "absent.json" "small.json" scenario_C_disk
  = (Raise (FileNotFoundError "absent.json"), scenario_C_disk).
Proof.
  split; [reflexivity|].
  apply (strip_missing_input (H := py_json) "absent.json" "small.json"
           scenario_C_disk); reflexivity.
Defined.

Lemma strip_invalid_json_witness :
  broken_disk !! "info.json" = Some (Text broken_text) ∧
  PyJson.loads broken_text = None ∧
  StripPrimeCache.strip_precomputed_primes (H := py_json)
    "info.json" "small.json" broken_disk
  = (Raise JSONDecodeError, broken_disk).
Proof.
  split_and!; [reflexivity..|].
  apply (strip_invalid_json (H := py_json) "info.json" "small.json"
           broken_disk broken_text); reflexivity.
Defined.

Lemma strip_not_an_object_witness :
  array_disk !! "info.json" = Some (Text array_text) ∧
  PyJson.loads array_text = Some (JArr [JNum 2; JNum 3; JNum 5]) ∧
  (∀ doc, JArr [JNum 2; JNum 3; JNum 5] ≠ JObj doc) ∧
  StripPrimeCache.strip_precomputed_primes (H := py_json)
    "info.json" "small.json" array_disk
  = (Raise TypeError, array_disk).
Proof.
  assert (∀ doc, JArr [JNum 2; JNum 3; JNum 5] ≠ JObj doc) as Hv
    by (intros doc; discriminate).
  split_and!; [reflexivity..|exact Hv|].
  apply (strip_not_an_object (H := py_json) "info.json" "small.json"
           array_disk array_text (JArr [JNum 2; JNum 3; JNum 5]));
    [reflexivity..|exact Hv].
Defined.

Lemma strip_output_lacks_field_witness :
  StripPrimeCache.strip_precomputed_primes (H := py_json)
    "info.json" "small.json" scenario_C_disk
  = (Return tt,
     <["small.json" := Text (PyJson.dumps (JObj stripped_doc))]>
       scenario_C_disk) ∧
  ∀ outfile',
    StripPrimeCache.strip_precomputed_primes (H := py_json)
      "small.json" outfile'
      (<["small.json" := Text (PyJson.dumps (JObj stripped_doc))]>
         scenario_C_disk)
    = (Raise (KeyError "PrecomputedPrimes"),
       <["small.json" := Text (PyJson.dumps (JObj stripped_doc))]>
         scenario_C_disk).
Proof.
  split; [reflexivity|].
  apply (strip_output_lacks_field (H := py_json) "info.json" "small.json"
           scenario_C_disk); reflexivity.
Defined.

Lemma plot_missing_report_witness :
  stripped_disk !! "info.json" = None ∧
  Plot.main (H := py_json) stripped_disk
  = (Raise (FileNotFoundError "info.json"), stripped_disk).
Proof.
  split; [reflexivity|].
  apply (plot_missing_report (H := py_json) stripped_disk); reflexivity.
Defined.

Lemma plot_missing_field_witness :
  fieldless_disk !! "info.json" = Some (Text fieldless_text) ∧
  PyJson.loads fieldless_text = Some (JObj fieldless_doc) ∧
  (fieldless_doc !! "PrimesSoFar" = None →
     Plot.main (H := py_json) fieldless_disk
     = (Raise (KeyError "PrimesSoFar"), fieldless_disk)) ∧
  (is_Some (fieldless_doc !! "PrimesSoFar") →
   fieldless_doc !! "GapCounter" = None →
     Plot.main (H := py_json) fieldless_disk
     = (Raise (KeyError "GapCounter"), fieldless_disk)).
Proof.
  split; [reflexivity|]. split; [reflexivity|].
  apply (plot_missing_field (H := py_json) fieldless_disk fieldless_text
           fieldless_doc); reflexivity.
Defined.

Lemma plot_not_an_object_witness :
  array_disk !! "info.json" = Some (Text array_text) ∧
  (PyJson.loads array_text = None →
     Plot.main (H := py_json) array_disk = (Raise JSONDecodeError, array_disk)) ∧
  (∀ v, PyJson.loads array_text = Some v → (∀ doc, v ≠ JObj doc) →
     Plot.main (H := py_json) array_disk = (Raise TypeError, array_disk)).
Proof.
  split; [reflexivity|].
  apply (plot_not_an_object (H := py_json) array_disk array_text); reflexivity.
Defined.

Lemma trimmed_info : info_json (H := py_json) trimmed_disk 100 [9; 0; 3].
Proof.
  exists trimmed_text,
    {[ "PrimesSoFar" := JNum 100; "GapCounter" := JArr (JNum <$> [9; 0; 3]) ]}.
  split_and!; [reflexivity..| |reflexivity].
  repeat (constructor; [reflexivity|]). constructor.
Defined.

Lemma trimmed_highest : highest_nonzero [9; 0; 3] 2.
Proof.
  split; [by exists 3|].
  intros [|[|[|i]]] c Hc Hi; simplify_eq/=; done || lia.
Defined.

Lemma trimmed_agrees (i : nat) :
  (1 ≤ i ≤ 2)%nat → [5; 0; 3; 0; 0] !! i = [9; 0; 3] !! i.
Proof. intros Hi. destruct i as [|[|[|i]]]; [lia|reflexivity..|lia]. Defined.

Lemma plot_depends_on_retained_counts_witness :
  info_json (H := py_json) scenario_A_disk 100 [5; 0; 3; 0; 0] ∧
  info_json (H := py_json) trimmed_disk 100 [9; 0; 3] ∧
  highest_nonzero [5; 0; 3; 0; 0] 2 ∧
  highest_nonzero [9; 0; 3] 2 ∧
  (∀ i : nat, (1 ≤ i ≤ 2)%nat → [5; 0; 3; 0; 0] !! i = [9; 0; 3] !! i) ∧
  ∃ fig,
    Plot.main (H := py_json) scenario_A_disk
      = (Return tt, <[plot_path 100 := Png fig]> scenario_A_disk) ∧
    Plot.main (H := py_json) trimmed_disk
      = (Return tt, <[plot_path 100 := Png fig]> trimmed_disk).
Proof.
  split; [exact scenario_A_info|]. split; [exact trimmed_info|].
  split; [exact scenario_A_highest|]. split; [exact trimmed_highest|].
  split; [exact trimmed_agrees|].
  apply (plot_depends_on_retained_counts (H := py_json) scenario_A_disk
           trimmed_disk 100 [5; 0; 3; 0; 0] [9; 0; 3] 2 scenario_A_info
           trimmed_info scenario_A_highest trimmed_highest trimmed_agrees).
Defined.

Lemma scenario_A_nonnegative : Forall (λ c, 0 ≤ c) [5; 0; 3; 0; 0].
Proof. repeat (constructor; [lia|]). constructor. Defined.

Lemma plot_of_nonnegative_counts_witness :
  info_json (H := py_json) scenario_A_disk 100 [5; 0; 3; 0; 0] ∧
  highest_nonzero [5; 0; 3; 0; 0] 2 ∧
  Forall (λ c, 0 ≤ c) [5; 0; 3; 0; 0] ∧
  ∃ fig,
    Plot.main (H := py_json) scenario_A_disk
      = (Return tt, <[plot_path 100 := Png fig]> scenario_A_disk) ∧
    (∀ x y, (x, y) ∈ scatter_offsets fig →
       y = NegInf ∨ ∃ c, 0 < c ∧ y = Log c) ∧
    ((1 ≤ 2)%nat →
       ∃ c, 0 < c ∧ [5; 0; 3; 0; 0] !! 2%nat = Some c ∧
         last (scatter_offsets fig) = Some (2 * Z.of_nat 2, Log c)).
Proof.
  split; [exact scenario_A_info|]. split; [exact scenario_A_highest|].
  split; [exact scenario_A_nonnegative|].
  apply (plot_of_nonnegative_counts (H := py_json) scenario_A_disk 100
           [5; 0; 3; 0; 0] 2 scenario_A_info scenario_A_highest
           scenario_A_nonnegative).
Defined.

Lemma negative_info : info_json (H := py_json) negative_disk 100 [5; -1; 3].
Proof.
  exists negative_text,
    {[ "PrimesSoFar" := JNum 100; "GapCounter" := JArr (JNum <$> [5; -1; 3]) ]}.
  split_and!; [reflexivity..| |reflexivity].
  repeat (constructor; [reflexivity|]). constructor.
Defined.

Lemma negative_highest : highest_nonzero [5; -1; 3] 2.
Proof.
  split; [by exists 3|].
  intros [|[|[|i]]] c Hc Hi; simplify_eq/=; done || lia.
Defined.

Lemma negative_count_plots_nan_witness :
  info_json (H := py_json) negative_disk 100 [5; -1; 3] ∧
  highest_nonzero [5; -1; 3] 2 ∧
  (1 ≤ 1 ≤ 2)%nat ∧
  [5; -1; 3] !! 1%nat = Some (-1) ∧
  -1 < 0 ∧
  ∃ fig,
    Plot.main (H := py_json) negative_disk
      = (Return tt, <[plot_path 100 := Png fig]> negative_disk) ∧
    scatter_offsets fig !! (1 - 1)%nat = Some (2 * Z.of_nat 1, NaN).
Proof.
  split; [exact negative_info|]. split; [exact negative_highest|].
  split; [lia|]. split; [reflexivity|]. split; [lia|].
  apply (negative_count_plots_nan (H := py_json) negative_disk 100
           [5; -1; 3] 2 1 (-1) negative_info negative_highest);
    [lia|reflexivity|lia].
Defined.

Lemma plot_of_other_count_untouched_witness :
  info_json (H := py_json) scenario_A_disk 100 [5; 0; 3; 0; 0] ∧
  7 ≠ 100 ∧
  (Plot.main (H := py_json) scenario_A_disk).2 !! plot_path 7
  = scenario_A_disk !! plot_path 7.
Proof.
  assert (7 ≠ 100) as Hne by lia.
  split; [exact scenario_A_info|]. split; [exact Hne|].
  apply (plot_of_other_count_untouched (H := py_json) scenario_A_disk 100
           [5; 0; 3; 0; 0] 7 scenario_A_info Hne).
Defined.

Lemma full_info : info_json (H := py_json) full_disk 100 [5; 0; 3; 0; 0].
Proof.
  exists full_text, full_doc.
  split_and!; [reflexivity..| |reflexivity].
  repeat (constructor; [reflexivity|]). constructor.
Defined.

Lemma strip_then_plot_witness :
  info_json (H := py_json) full_disk 100 [5; 0; 3; 0; 0] ∧
  StripPrimeCache.strip_precomputed_primes (H := py_json)
    "info.json" "info.json" full_disk
  = (Return tt,
     {["info.json" :=
         Text (PyJson.dumps (JObj (delete "PrecomputedPrimes" full_doc)))]}) ∧
  info_json (H := py_json)
    {["info.json" :=
        Text (PyJson.dumps (JObj (delete "PrecomputedPrimes" full_doc)))]}
    100 [5; 0; 3; 0; 0] ∧
  (Plot.main (H := py_json)
     {["info.json" :=
         Text (PyJson.dumps (JObj (delete "PrecomputedPrimes" full_doc)))]}).1
  = (Plot.main (H := py_json) full_disk).1 ∧
  ∀ path, path ≠ "info.json" →
    (Plot.main (H := py_json)
       {["info.json" :=
           Text (PyJson.dumps
                   (JObj (delete "PrecomputedPrimes" full_doc)))]}).2 !! path
    = (Plot.main (H := py_json) full_disk).2 !! path.
Proof.
  split; [exact full_info|]. split; [reflexivity|].
  apply (strip_then_plot (H := py_json) full_disk _ 100 [5; 0; 3; 0; 0]
           full_info); reflexivity.
Defined.

Lemma main_with_both_options_witness :
  StripMain.is_infile "-i" = true ∧
  StripMain.is_outfile "--outfile" = true ∧
  StripMain.is_plain "info.json" = true ∧
  StripMain.is_plain "small.json" = true ∧
  StripMain.main (H := py_json)
    ["-i"; "info.json"; "--outfile"; "small.json"] scenario_C_disk
  = bind (StripPrimeCache.strip_precomputed_primes (H := py_json)
            "info.json" "small.json")
      (λ _, ret StripMain.Finished) scenario_C_disk ∧
  StripMain.main (H := py_json)
    ["--outfile"; "small.json"; "-i"; "info.json"] scenario_C_disk
  = StripMain.main (H := py_json)
      ["-i"; "info.json"; "--outfile"; "small.json"] scenario_C_disk.
Proof.
  split_and!; [reflexivity..| |];
    apply (main_with_both_options (H := py_json) "-i" "--outfile"
             "info.json" "small.json" scenario_C_disk); reflexivity.
Defined.

Lemma main_requires_both_options_witness :
  forallb StripMain.modelled ["-i"; "info.json"] = true ∧
  Forall (λ t, StripMain.is_help t = false) ["-i"; "info.json"] ∧
  (Forall (λ t, StripMain.is_infile t = false) ["-i"; "info.json"] ∨
   Forall (λ t, StripMain.is_outfile t = false) ["-i"; "info.json"]) ∧
  StripMain.main (H := py_json) ["-i"; "info.json"] scenario_C_disk
  = (Return (StripMain.SystemExit 2), scenario_C_disk).
Proof.
  assert (Forall (λ t, StripMain.is_help t = false) ["-i"; "info.json"])
    as Hhelp by (repeat (constructor; [reflexivity|]); constructor).
  assert (Forall (λ t, StripMain.is_outfile t = false) ["-i"; "info.json"])
    as Hout by (repeat (constructor; [reflexivity|]); constructor).
  split; [reflexivity|]. split; [exact Hhelp|]. split; [right; exact Hout|].
  apply (main_requires_both_options (H := py_json) ["-i"; "info.json"]
           scenario_C_disk); [reflexivity|exact Hhelp|right; exact Hout].
Defined.

Lemma main_refuses_stray_word_witness :
  StripMain.is_infile "-i" = true ∧
  StripMain.is_outfile "-o" = true ∧
  StripMain.is_plain "info.json" = true ∧
  StripMain.is_plain "small.json" = true ∧
  StripMain.is_plain "extra" = true ∧
  StripMain.main (H := py_json)
    ["-i"; "info.json"; "-o"; "small.json"; "extra"] scenario_C_disk
  = (Return (StripMain.SystemExit 2), scenario_C_disk) ∧
  StripMain.main (H := py_json)
    ["extra"; "-i"; "info.json"; "-o"; "small.json"] scenario_C_disk
  = (Return (StripMain.SystemExit 2), scenario_C_disk).
Proof.
  split_and!; [reflexivity..| |];
    apply (main_refuses_stray_word (H := py_json) "-i" "-o" "info.json"
             "small.json" "extra" scenario_C_disk); reflexivity.
Defined.

(** ** Paths that alias, paths that lead nowhere *)

(** Two spellings of the report: the stripped document replaces the
    input. *)
Example strip_through_alias :
  Os.resolve (Names := Os.flat) "info.json" = Some "info.json" ∧
  Os.resolve (Names := Os.flat) "./info.json" = Some "info.json" ∧
  Os.strip_precomputed_primes (H := py_json) (H0 := Os.flat)
    "info.json" "./info.json" scenario_C_disk
  = (Return tt,
     {["info.json" := Text (PyJson.dumps (JObj stripped_doc))]}).
Proof. split_and!; reflexivity. Qed.

(** An output in a directory that does not exist, an empty output path:
    [open] raises after the report was read, nothing is written. *)
Example strip_to_nowhere :
  Os.strip_precomputed_primes (H := py_json) (H0 := Os.flat)
    "info.json" "nodir/small.json" scenario_C_disk
  = (Raise (FileNotFoundError "nodir/small.json"), scenario_C_disk) ∧
  Os.strip_precomputed_primes (H := py_json) (H0 := Os.flat)
    "info.json" "" scenario_C_disk
  = (Raise (FileNotFoundError ""), scenario_C_disk).
Proof. split; reflexivity. Qed.

Lemma flat_other_file :
  Os.resolve (Names := Os.flat) "small.json" ≠ Some "info.json".
Proof. discriminate. Defined.

Lemma strip_keeps_input_file_witness :
  Os.resolve (Names := Os.flat) "./info.json" = Some "info.json" ∧
  Os.resolve (Names := Os.flat) "small.json" ≠ Some "info.json" ∧
  (Os.strip_precomputed_primes (H := py_json) (H0 := Os.flat)
     "./info.json" "small.json" scenario_C_disk).2 !! "info.json"
  = scenario_C_disk !! "info.json".
Proof.
  split; [reflexivity|]. split; [exact flat_other_file|].
  apply (strip_keeps_input_file (H := py_json) (H0 := Os.flat)
           "./info.json" "small.json" scenario_C_disk "info.json");
    [reflexivity|exact flat_other_file].
Defined.

Lemma flat_not_aliased input :
  Os.resolve (Names := Os.flat) "./info.json" = Some input →
  Os.resolve (Names := Os.flat) "small.json" ≠ Some input.
Proof. intros [= <-]. discriminate. Defined.

Lemma strip_idempotent_on_files_witness :
  (∀ input,
     Os.resolve (Names := Os.flat) "./info.json" = Some input →
     Os.resolve (Names := Os.flat) "small.json" ≠ Some input) ∧
  Os.strip_precomputed_primes (H := py_json) (H0 := Os.flat)
    "./info.json" "small.json"
    (Os.strip_precomputed_primes (H := py_json) (H0 := Os.flat)
       "./info.json" "small.json" scenario_C_disk).2
  = Os.strip_precomputed_primes (H := py_json) (H0 := Os.flat)
      "./info.json" "small.json" scenario_C_disk.
Proof.
  split; [exact flat_not_aliased|].
  apply (strip_idempotent_on_files (H := py_json) (H0 := Os.flat)
           "./info.json" "small.json" scenario_C_disk flat_not_aliased).
Defined.

Lemma flat_input_elsewhere :
  Os.resolve (Names := Os.flat) "./info.json" ≠ Some "small.json".
Proof. discriminate. Defined.

Lemma strip_ignores_old_output_witness :
  Os.resolve (Names := Os.flat) "small.json" = Some "small.json" ∧
  Os.resolve (Names := Os.flat) "./info.json" ≠ Some "small.json" ∧
  (Os.strip_precomputed_primes (H := py_json) (H0 := Os.flat)
     "./info.json" "small.json"
     (<["small.json" := Text "an older file"]> scenario_C_disk)).1
  = (Os.strip_precomputed_primes (H := py_json) (H0 := Os.flat)
       "./info.json" "small.json"
       (<["small.json" := Text scenario_A_text]> scenario_C_disk)).1 ∧
  ((Os.strip_precomputed_primes (H := py_json) (H0 := Os.flat)
      "./info.json" "small.json"
      (<["small.json" := Text "an older file"]> scenario_C_disk)).1
   = Return tt →
   (Os.strip_precomputed_primes (H := py_json) (H0 := Os.flat)
      "./info.json" "small.json"
      (<["small.json" := Text "an older file"]> scenario_C_disk)).2
   = (Os.strip_precomputed_primes (H := py_json) (H0 := Os.flat)
        "./info.json" "small.json"
        (<["small.json" := Text scenario_A_text]> scenario_C_disk)).2).
Proof.
  split; [reflexivity|]. split; [exact flat_input_elsewhere|].
  apply (strip_ignores_old_output (H := py_json) (H0 := Os.flat)
           "./info.json" "small.json" scenario_C_disk "small.json"
           (Text "an older file") (Text scenario_A_text));
    [reflexivity|exact flat_input_elsewhere].
Defined.

Lemma plot_keeps_report_file_witness :
  info_json (H := py_json) scenario_A_disk 100 [5; 0; 3; 0; 0] ∧
  (Plot.main (H := py_json) scenario_A_disk).2 !! "info.json"
  = scenario_A_disk !! "info.json".
Proof.
  split; [exact scenario_A_info|].
  apply (plot_keeps_report_file (H := py_json) scenario_A_disk 100
           [5; 0; 3; 0; 0] scenario_A_info).
Defined.

Lemma plot_raise_writes_nothing_witness :
  (Plot.main (H := py_json) scenario_B_disk).1 = Raise ValueError ∧
  (Plot.main (H := py_json) scenario_B_disk).2 = scenario_B_disk.
Proof.
  split; [reflexivity|].
  apply (plot_raise_writes_nothing (H := py_json) scenario_B_disk ValueError).
  reflexivity.
Defined.
